(** * fastkml: attribute registry and codec helpers

    A shallow embedding of [fastkml/registry.py], [fastkml/helpers.py] and
    [fastkml/links.py], and the properties of the registry and of the codec
    functions that the specification states about them.

    Conventions of the embedding:
    - a Python exception is a value of [exn]; a call that may raise returns
      [result];
    - a [dict] keyed by strings is a [gmap string _]; the registry's lists are
      mutable objects and live in a store of list objects indexed by
      address, so that aliasing is visible;
    - text is ASCII: [str.strip], [str.lower], [int] and [float] are given on
      the ASCII range of their Python definitions;
    - a [float] is a binary64 value ([spec_float] of the Standard Library). *)

From Stdlib Require Import ZArith String Ascii List Bool Lia DecimalString.
From Stdlib Require Import Floats.SpecFloat.
From Stdlib Require DecimalPos.
From stdpp Require Import gmap strings list fin_maps.

#[local] Set Warnings "-register-all".
#[local] Open Scope string_scope.
#[local] Open Scope Z_scope.

(** ** Exceptions and results *)

Inductive exn :=
| TypeError
| ValueError
| OverflowError
| AttributeError.

Inductive result (A : Type) :=
| Ok (a : A)
| Raise (e : exn).

Arguments Ok {A} a.
Arguments Raise {A} e.

Definition bind {A B : Type} (r : result A) (k : A -> result B) : result B :=
  match r with
  | Ok a => k a
  | Raise e => Raise e
  end.

Notation "'let*' x ':=' r 'in' k" := (bind r (fun x => k))
  (at level 10, x name, r at level 100, k at level 200).

(** [[f(x) for x in xs]]: the first exception aborts the comprehension. *)
Fixpoint mapM {A B : Type} (f : A -> result B) (xs : list A) : result (list B) :=
  match xs with
  | [] => Ok []
  | x :: xs' => let* y := f x in let* ys := mapM f xs' in Ok (y :: ys)
  end.

(** ** Python built-ins on text *)

Module Py.

(** [str.isspace] on the ASCII range: TAB..CR, FS..US and the space. *)
Definition isspace (c : ascii) : bool :=
  let n := N_of_ascii c in
  ((9 <=? n) && (n <=? 13) || (28 <=? n) && (n <=? 32))%N.

Fixpoint lstrip (s : string) : string :=
  match s with
  | String c s' => if isspace c then lstrip s' else s
  | EmptyString => EmptyString
  end.

Definition rstrip (s : string) : string :=
  String.rev (lstrip (String.rev s)).

(** [s.strip()] *)
Definition strip (s : string) : string := rstrip (lstrip s).

Definition lower_char (c : ascii) : ascii :=
  let n := N_of_ascii c in
  if ((65 <=? n) && (n <=? 90))%N then ascii_of_N (n + 32) else c.

(** [s.lower()] *)
Fixpoint lower (s : string) : string :=
  match s with
  | String c s' => String (lower_char c) (lower s')
  | EmptyString => EmptyString
  end.

(** Truth value of a [str]: the empty string is false. *)
Definition truthy_str (s : string) : bool :=
  match s with
  | EmptyString => false
  | _ => true
  end.

Definition digit_of (c : ascii) : option Z :=
  let n := N_of_ascii c in
  if ((48 <=? n) && (n <=? 57))%N then Some (Z.of_N (n - 48)) else None.

(** The longest prefix of the form [digit (["_"] digit)*], as its digits,
    and the rest of the string; no digits when the string does not start
    with a digit. An underscore that no digit follows is left in the rest. *)
Fixpoint span_digitpart (s : string) : list Z * string :=
  match s with
  | String c s' =>
      match digit_of c with
      | Some d =>
          match s' with
          | String "_"%char s'' =>
              match span_digitpart s'' with
              | ([], _) => ([d], s')
              | (ds, r) => (d :: ds, r)
              end
          | _ => let '(ds, r) := span_digitpart s' in (d :: ds, r)
          end
      | None => ([], s)
      end
  | EmptyString => ([], s)
  end.

Definition digits_value (ds : list Z) : Z :=
  fold_left (fun acc d => 10 * acc + d) ds 0.

Definition split_sign (s : string) : bool * string :=
  match s with
  | String "-"%char r => (true, r)
  | String "+"%char r => (false, r)
  | _ => (false, s)
  end.

(** A signed decimal integer that fills the whole string. *)
Definition signed_digitpart (s : string) : option Z :=
  let '(neg, r) := split_sign s in
  match span_digitpart r with
  | (d :: ds, EmptyString) =>
      let v := digits_value (d :: ds) in Some (if neg then - v else v)
  | _ => None
  end.

(** [int(s)] for a [str]; [None] is [ValueError]. *)
Definition int_of_str (s : string) : option Z := signed_digitpart (strip s).

(** The binary64 value nearest to [m * 10^e] (ties to even), for [0 <= m]. *)
Definition round_decimal (neg : bool) (m e : Z) : spec_float :=
  if m =? 0 then S754_zero neg
  else
    let n := if 0 <=? e then m * 10 ^ e else m in
    let d := if 0 <=? e then 1 else 10 ^ (- e) in
    let k := Z.max 0 (64 + Z.log2 d - Z.log2 n) in
    let '(q, r) := Z.div_eucl (Z.shiftl n k) d in
    binary_round_aux 53 1024 neg q (- k) (new_location d r).

(** The exponent part of a float literal: empty, or [e] or [E], an optional
    sign and a digit part. *)
Definition exponent_of (s : string) : option Z :=
  match s with
  | EmptyString => Some 0
  | String c r =>
      if (lower_char c =? "e")%char then signed_digitpart r else None
  end.

(** [float(s)] for a [str]; [None] is [ValueError]. *)
Definition float_of_str (s : string) : option spec_float :=
  let '(neg, r) := split_sign (strip s) in
  let lr := lower r in
  if (lr =? "inf")%string || (lr =? "infinity")%string then Some (S754_infinity neg)
  else if (lr =? "nan")%string then Some S754_nan
  else
    let '(ip, r1) := span_digitpart r in
    let '(fp, r2) :=
      match r1 with
      | String "."%char r1' => span_digitpart r1'
      | _ => ([], r1)
      end in
    match (ip ++ fp)%list with
    | [] => None
    | ds =>
        match exponent_of r2 with
        | Some e => Some (round_decimal neg (digits_value ds) (e - Z.of_nat (length fp)))
        | None => None
        end
    end.

(** [int(x)] for a [float]: truncation towards zero; a NaN is a
    [ValueError] and an infinity an [OverflowError]. *)
Definition int_of_float (x : spec_float) : result Z :=
  match x with
  | S754_nan => Raise ValueError
  | S754_infinity _ => Raise OverflowError
  | S754_zero _ => Ok 0
  | S754_finite s m e =>
      let a := if 0 <=? e then Z.shiftl (Z.pos m) e else Z.shiftr (Z.pos m) (- e) in
      Ok (if s then - a else a)
  end.

(** [bool(n)] for an [int]. *)
Definition bool_of_int (n : Z) : bool := negb (n =? 0).

(** [str(n)] for an [int]. *)
Definition str_of_int (n : Z) : string := NilZero.string_of_int (Z.to_int n).

(** An f-string field holding an [Optional[str]]. *)
Definition fstr (s : option string) : string :=
  match s with
  | Some x => x
  | None => "None"
  end.

End Py.

(** ** The element tree

    The part of [fastkml.types.Element] that the helpers use: a tag, a text
    and the children in document order. *)

Inductive Element :=
| mkElement (tag : string) (text : option string) (children : list Element).

Definition tag (e : Element) : string := let 'mkElement t _ _ := e in t.
Definition text (e : Element) : option string := let 'mkElement _ t _ := e in t.
Definition children (e : Element) : list Element := let 'mkElement _ _ c := e in c.

(** [element.find(name)]: the first child with that qualified name. *)
Definition find (element : Element) (name : string) : option Element :=
  List.find (fun c => String.eqb (tag c) name) (children element).

(** [element.findall(name)]: the children with that qualified name, in
    document order. *)
Definition findall (element : Element) (name : string) : list Element :=
  List.filter (fun c => String.eqb (tag c) name) (children element).

(** The element after its children were extended by [cs]. *)
Definition extend (element : Element) (cs : list Element) : Element :=
  mkElement (tag element) (text element) (children element ++ cs).

(** [element.append(child)] *)
Definition append (element child : Element) : Element := extend element [child].

(** [subelement = SubElement(element, name)] followed by
    [subelement.text = txt]; the new child is referred to by nothing else. *)
Definition SubElement (element : Element) (name txt : string) : Element :=
  append element (mkElement name (Some txt) []).

(** ** Values, objects and classes *)

(** [fastkml.enums.Verbosity] is defined outside these sources, which name
    only its member [normal]; [terse] and [verbose] stand for the others.
    The helpers pass the value on unread. [None] is [option]'s. *)
Inductive Verbosity := terse | normal | verbose.

(** A class object. Python compares and hashes classes by identity, so a
    class is known by its address [class_id], the number that [id(cls)]
    gives, and two classes can have the same [__name__]. [__mro__] is the
    linearisation that Python computed for the class, from the class itself
    to [object]: the classes of the tuple, by address. *)
Record pytype := mkType {
  class_id : positive;
  __name__ : string;
  __mro__ : list positive
}.

(** [object], the last class of every linearisation. *)
Definition object : pytype := mkType 1 "object" [1%positive].

(** A member of an [Enum]: the class it belongs to and its [value]. *)
Record EnumMember := mkMember { member_of : string; value : string }.

(** An [Enum] class: calling it looks a value up among its members'. *)
Record EnumClass := mkEnum { enum_name : string; enum_values : list string }.

(** The values that attributes and keyword mappings hold. An [_XMLObject]
    carries its class, its [ns], its data attributes and the truth value
    that its class gives it ([fastkml.base] is outside these sources). *)
Inductive pyval :=
| VNone
| VBool (b : bool)
| VInt (n : Z)
| VFloat (x : spec_float)
| VStr (s : string)
| VEnum (m : EnumMember)
| VObj (o : XMLObject)
| VList (l : list pyval)
| VDict (d : gmap string pyval)
with XMLObject :=
| mkObject (obj_type : pytype) (ns : string) (attrs : gmap string pyval)
    (obj_bool : bool).

Definition obj_type (o : XMLObject) : pytype := let 'mkObject t _ _ _ := o in t.
Definition obj_ns (o : XMLObject) : string := let 'mkObject _ n _ _ := o in n.
Definition obj_attrs (o : XMLObject) : gmap string pyval := let 'mkObject _ _ a _ := o in a.
Definition obj_bool (o : XMLObject) : bool := let 'mkObject _ _ _ b := o in b.

Abbreviation kwargs_dict := (gmap string pyval).
Abbreviation name_spaces_dict := (gmap string string).

(** An [_XMLObject] class as the nested decoders use it. *)
Record XMLClass := mkClass {
  class_type : pytype;
  get_tag_name : string;
  class_from_element :
    string -> option name_spaces_dict -> Element -> bool -> result XMLObject
}.

(** [getattr(obj, name, None)] on the data attributes. *)
Definition getattr (obj : XMLObject) (name : string) : pyval :=
  default VNone (obj_attrs obj !! name).

(** The truth value of [v] in a condition. A member of a plain [Enum] is
    true; a NaN is true. *)
Definition truthy (v : pyval) : bool :=
  match v with
  | VNone => false
  | VBool b => b
  | VInt n => negb (n =? 0)
  | VFloat (S754_zero _) => false
  | VFloat _ => true
  | VStr s => Py.truthy_str s
  | VEnum _ => true
  | VObj o => obj_bool o
  | VList l => match l with [] => false | _ => true end
  | VDict d => negb (Nat.eqb (size d) 0)
  end.

Definition is_none (v : pyval) : bool :=
  match v with
  | VNone => true
  | _ => false
  end.

(** [EnumClass(text)]: the member with that value, else [ValueError]. *)
Definition enum_call (c : EnumClass) (txt : string) : result pyval :=
  if existsb (String.eqb txt) (enum_values c)
  then Ok (VEnum (mkMember (enum_name c) txt))
  else Raise ValueError.

(** [int(v)] *)
Definition py_int (v : pyval) : result Z :=
  match v with
  | VBool b => Ok (if b then 1 else 0)
  | VInt n => Ok n
  | VFloat x => Py.int_of_float x
  | VStr s =>
      match Py.int_of_str s with
      | Some n => Ok n
      | None => Raise ValueError
      end
  | _ => Raise TypeError
  end.

(** ** [fastkml/helpers.py] *)

Module helpers.

Section Encoders.

(** [str(v)] for the values whose text depends on more than this embedding
    holds: the shortest representation of a float, the member name of an
    enumeration, the identity of an object. *)
Variable repr_other : pyval -> string.

(** [o.etree_element(precision=precision, verbosity=verbosity)] for a nested
    object, as the class of [o] defines it. *)
Variable etree_element : XMLObject -> option Z -> option Verbosity -> result Element.

(** [str(v)] *)
Definition py_str (v : pyval) : string :=
  match v with
  | VNone => "None"
  | VBool true => "True"
  | VBool false => "False"
  | VInt n => Py.str_of_int n
  | VStr s => s
  | _ => repr_other v
  end.

(** [subelement.text = v]: the tree holds text only, and a value that is
    no [str] is refused with [TypeError], as [lxml] does. *)
Definition text_of (v : pyval) : result string :=
  match v with
  | VStr s => Ok s
  | _ => Raise TypeError
  end.

(** [v.value] *)
Definition value_of (v : pyval) : result string :=
  match v with
  | VEnum m => Ok (value m)
  | _ => Raise AttributeError
  end.

(** [v.etree_element(precision=precision, verbosity=verbosity)] *)
Definition etree_element_of (v : pyval) (precision : option Z)
    (verbosity : option Verbosity) : result Element :=
  match v with
  | VObj o => etree_element o precision verbosity
  | _ => Raise AttributeError
  end.

(** [for item in v]: the items that the loop visits. *)
Definition iterate (v : pyval) : result (list pyval) :=
  match v with
  | VList l => Ok l
  | VStr s => Ok (map (fun c => VStr (String c EmptyString)) (list_ascii_of_string s))
  | VDict d => Ok (map (fun kv => VStr kv.1) (map_to_list d))
  | _ => Raise TypeError
  end.

Definition text_subelement (obj : XMLObject) (element : Element)
    (attr_name : string) (node_name : option string)
    (precision : option Z) (verbosity : option Verbosity) : result Element :=
  if truthy (getattr obj attr_name) then
    let* txt := text_of (getattr obj attr_name) in
    Ok (SubElement element (obj_ns obj ++ Py.fstr node_name) txt)
  else Ok element.

Definition bool_subelement (obj : XMLObject) (element : Element)
    (attr_name : string) (node_name : option string)
    (precision : option Z) (verbosity : option Verbosity) : result Element :=
  if negb (is_none (getattr obj attr_name)) then
    let* n := py_int (getattr obj attr_name) in
    Ok (SubElement element (obj_ns obj ++ Py.fstr node_name) (Py.str_of_int n))
  else Ok element.

Definition int_subelement (obj : XMLObject) (element : Element)
    (attr_name : string) (node_name : option string)
    (precision : option Z) (verbosity : option Verbosity) : result Element :=
  if negb (is_none (getattr obj attr_name)) then
    Ok (SubElement element (obj_ns obj ++ Py.fstr node_name)
          (py_str (getattr obj attr_name)))
  else Ok element.

Definition float_subelement (obj : XMLObject) (element : Element)
    (attr_name : string) (node_name : option string)
    (precision : option Z) (verbosity : option Verbosity) : result Element :=
  if negb (is_none (getattr obj attr_name)) then
    Ok (SubElement element (obj_ns obj ++ Py.fstr node_name)
          (py_str (getattr obj attr_name)))
  else Ok element.

Definition enum_subelement (obj : XMLObject) (element : Element)
    (attr_name : string) (node_name : option string)
    (precision : option Z) (verbosity : option Verbosity) : result Element :=
  if truthy (getattr obj attr_name) then
    let* txt := value_of (getattr obj attr_name) in
    Ok (SubElement element (obj_ns obj ++ Py.fstr node_name) txt)
  else Ok element.

Definition xml_subelement (obj : XMLObject) (element : Element)
    (attr_name : string) (node_name : option string)
    (precision : option Z) (verbosity : option Verbosity) : result Element :=
  if truthy (getattr obj attr_name) then
    let* child := etree_element_of (getattr obj attr_name) precision verbosity in
    Ok (append element child)
  else Ok element.

(** The loop of [xml_subelement_list]: one [element.append] per item. *)
Fixpoint append_each (element : Element) (items : list pyval)
    (precision : option Z) (verbosity : option Verbosity) : result Element :=
  match items with
  | [] => Ok element
  | item :: rest =>
      let* child := etree_element_of item precision verbosity in
      append_each (append element child) rest precision verbosity
  end.

Definition xml_subelement_list (obj : XMLObject) (element : Element)
    (attr_name : string) (node_name : option string)
    (precision : option Z) (verbosity : option Verbosity) : result Element :=
  if truthy (getattr obj attr_name) then
    let* items := iterate (getattr obj attr_name) in
    append_each element items precision verbosity
  else Ok element.

End Encoders.

(** [node.text and node.text.strip()] as a condition, with the stripped
    text when it holds. *)
Definition stripped_text (node : Element) : option string :=
  match text node with
  | Some t =>
      if Py.truthy_str t && Py.truthy_str (Py.strip t) then Some (Py.strip t) else None
  | None => None
  end.

Definition subelement_text_kwarg (element : Element) (ns : string)
    (name_spaces : option name_spaces_dict) (node_name : option string)
    (kwarg : string) (strict : bool) : result kwargs_dict :=
  match find element (ns ++ Py.fstr node_name) with
  | None => Ok ∅
  | Some node =>
      match stripped_text node with
      | Some t => Ok {[ kwarg := VStr t ]}
      | None => Ok ∅
      end
  end.

Definition subelement_bool_kwarg (element : Element) (ns : string)
    (name_spaces : option name_spaces_dict) (node_name : option string)
    (kwarg : string) (strict : bool) : result kwargs_dict :=
  match find element (ns ++ Py.fstr node_name) with
  | None => Ok ∅
  | Some node =>
      match stripped_text node with
      | Some t =>
          if strict then
            match Py.int_of_str t with
            | Some n => Ok {[ kwarg := VBool (Py.bool_of_int n) ]}
            | None => Raise ValueError
            end
          else if (Py.lower t =? "1")%string || (Py.lower t =? "true")%string then
            Ok {[ kwarg := VBool true ]}
          else if (Py.lower t =? "0")%string || (Py.lower t =? "false")%string then
            Ok {[ kwarg := VBool false ]}
          else
            match Py.float_of_str t with
            | Some x =>
                match Py.int_of_float x with
                | Ok n => Ok {[ kwarg := VBool (Py.bool_of_int n) ]}
                | Raise ValueError => Ok ∅
                | Raise e => Raise e
                end
            | None => Ok ∅
            end
      | None => Ok ∅
      end
  end.

Definition subelement_int_kwarg (element : Element) (ns : string)
    (name_spaces : option name_spaces_dict) (node_name : option string)
    (kwarg : string) (strict : bool) : result kwargs_dict :=
  match find element (ns ++ Py.fstr node_name) with
  | None => Ok ∅
  | Some node =>
      match stripped_text node with
      | Some t =>
          match Py.int_of_str t with
          | Some n => Ok {[ kwarg := VInt n ]}
          | None => if strict then Raise ValueError else Ok ∅
          end
      | None => Ok ∅
      end
  end.

Definition subelement_float_kwarg (element : Element) (ns : string)
    (name_spaces : option name_spaces_dict) (node_name : option string)
    (kwarg : string) (strict : bool) : result kwargs_dict :=
  match find element (ns ++ Py.fstr node_name) with
  | None => Ok ∅
  | Some node =>
      match stripped_text node with
      | Some t =>
          match Py.float_of_str t with
          | Some x => Ok {[ kwarg := VFloat x ]}
          | None => if strict then Raise ValueError else Ok ∅
          end
      | None => Ok ∅
      end
  end.

Definition subelement_enum_kwarg (element : Element) (ns : string)
    (name_spaces : option name_spaces_dict) (node_name : option string)
    (kwarg : string) (enum_class : EnumClass) (strict : bool) : result kwargs_dict :=
  match find element (ns ++ Py.fstr node_name) with
  | None => Ok ∅
  | Some node =>
      match stripped_text node with
      | Some t =>
          let* m := enum_call enum_class t in
          Ok {[ kwarg := m ]}
      | None => Ok ∅
      end
  end.

Definition xml_subelement_kwarg (element : Element) (ns : string)
    (name_spaces : option name_spaces_dict) (node_name : option string)
    (kwarg : string) (obj_class : XMLClass) (strict : bool) : result kwargs_dict :=
  match find element (ns ++ get_tag_name obj_class) with
  | None => Ok ∅
  | Some subelement =>
      let* o := class_from_element obj_class ns name_spaces subelement strict in
      Ok {[ kwarg := VObj o ]}
  end.

(** The loop of [xml_subelement_list_kwarg] over the candidate classes;
    [args_list] is the list built so far. *)
Fixpoint collect_classes (element : Element) (ns : string)
    (name_spaces : option name_spaces_dict) (obj_classes : list XMLClass)
    (strict : bool) (args_list : list pyval) : result (list pyval) :=
  match obj_classes with
  | [] => Ok args_list
  | obj_class :: rest =>
      match findall element (ns ++ get_tag_name obj_class) with
      | [] => collect_classes element ns name_spaces rest strict args_list
      | subelements =>
          let* objs :=
            mapM (fun subelement =>
                    let* o := class_from_element obj_class ns name_spaces subelement strict in
                    Ok (VObj o))
                 subelements in
          collect_classes element ns name_spaces rest strict (args_list ++ objs)
      end
  end.

Definition xml_subelement_list_kwarg (element : Element) (ns : string)
    (name_spaces : option name_spaces_dict) (kwarg : string)
    (obj_classes : list XMLClass) (strict : bool) : result kwargs_dict :=
  let* args_list := collect_classes element ns name_spaces obj_classes strict [] in
  Ok {[ kwarg := VList args_list ]}.

End helpers.

(** ** [fastkml/registry.py] *)

Module registry.

(** The members of [known_types]. *)
Inductive known_type :=
| KXml (c : XMLClass)
| KEnum (c : EnumClass)
| KBool
| KInt
| KStr
| KFloat.

(** The [GetKWArgs] protocol: a callable taking the keywords [element],
    [ns], [name_spaces], [node_name], [attr_name], [classes] and [strict]. *)
Definition GetKWArgs : Type :=
  Element -> string -> option name_spaces_dict -> option string -> string ->
  list known_type -> bool -> result kwargs_dict.

(** The [SetElement] protocol: a callable taking the keywords [obj],
    [element], [attr_name], [node_name], [precision] and [verbosity]; the
    result is the element after the call mutated it. *)
Definition SetElement : Type :=
  XMLObject -> Element -> string -> option string -> option Z ->
  option Verbosity -> result Element.

Record RegistryItem := mkItem {
  classes : list known_type;
  attr_name : string;
  get_kwarg : GetKWArgs;
  set_element : SetElement;
  node_name : option string
}.

(** The state that the registry works on: the list objects, by address, and
    the [_registry] dictionary of the [Registry] instance, whose keys are
    class objects: it holds for the address of a class the address of its
    list. *)
Record world := mkWorld {
  lists : gmap positive (list RegistryItem);
  _registry : gmap positive positive
}.

(** [Registry()] in a store without lists. *)
Definition init : world := mkWorld ∅ ∅.

(** A list display: a new list object, at an address not in use. *)
Definition new_list (w : world) (l : list RegistryItem) : positive * world :=
  let a := fresh (dom (lists w)) in
  (a, mkWorld (<[a := l]> (lists w)) (_registry w)).

(** The items of the list at [a]. *)
Definition list_items (w : world) (a : positive) : list RegistryItem :=
  default [] (lists w !! a).

(** [l.extend(xs)], and [l.append(x)] for a single item, on the list at [a] *)
Definition list_extend (w : world) (a : positive) (xs : list RegistryItem) : world :=
  mkWorld (alter (fun l => (l ++ xs)%list) a (lists w)) (_registry w).

(** [self._registry.get(key, [])]: the default list is built before the
    lookup, and nothing is stored. *)
Definition registry_get (w : world) (key : positive) : positive * world :=
  let '(d, w1) := new_list w [] in
  (default d (_registry w1 !! key), w1).

Definition register (w : world) (cls : pytype) (item : RegistryItem) : world :=
  let '(existing, w1) := registry_get w (class_id cls) in
  let w2 := list_extend w1 existing [item] in
  mkWorld (lists w2) (<[class_id cls := existing]> (_registry w2)).

(** The loop of [get]: [items] is the address of the list being built. *)
Fixpoint get_loop (w : world) (items : positive) (parents : list positive) : world :=
  match parents with
  | [] => w
  | parent :: rest =>
      let '(l, w1) := registry_get w parent in
      get_loop (list_extend w1 items (list_items w1 l)) items rest
  end.

Definition get (w : world) (cls : pytype) : positive * world :=
  let parents := rev (removelast (__mro__ cls)) in
  let '(items, w1) := new_list w [] in
  (items, get_loop w1 items parents).

(** The loop of [get_kwargs] over the items that [get] returned. *)
Fixpoint get_kwargs_loop (items : list RegistryItem) (element : Element)
    (ns : string) (name_spaces : option name_spaces_dict) (strict : bool)
    (kwargs : kwargs_dict) : result kwargs_dict :=
  match items with
  | [] => Ok kwargs
  | item :: rest =>
      let* r := get_kwarg item element ns name_spaces (node_name item)
                  (attr_name item) (classes item) strict in
      get_kwargs_loop rest element ns name_spaces strict
        (<[attr_name item := VDict r]> kwargs)
  end.

Definition get_kwargs (w : world) (cls : pytype) (element : Element)
    (ns : string) (name_spaces : option name_spaces_dict) (strict : bool)
    : result kwargs_dict * world :=
  let '(items, w1) := get w cls in
  (get_kwargs_loop (list_items w1 items) element ns name_spaces strict ∅, w1).

(** The loop of [sub_element]; each call works on the element as the
    calls before it left it. *)
Fixpoint sub_element_loop (items : list RegistryItem) (obj : XMLObject)
    (element : Element) (precision : option Z) (verbosity : option Verbosity)
    : result Element :=
  match items with
  | [] => Ok element
  | item :: rest =>
      let* element' := set_element item obj element (attr_name item)
                         (node_name item) precision verbosity in
      sub_element_loop rest obj element' precision verbosity
  end.

Definition sub_element (w : world) (obj : XMLObject) (element : Element)
    (precision : option Z) (verbosity : option Verbosity)
    : result Element * world :=
  let '(items, w1) := get w (obj_type obj) in
  (sub_element_loop (list_items w1 items) obj element precision verbosity, w1).

End registry.

(** ** Calls with keyword arguments

    [links.py] calls the helpers by name with keyword arguments. Python
    binds the arguments of a call to the parameters of the [def] before the
    body runs and raises [TypeError] when a keyword names no parameter, when
    a parameter gets two values or when a parameter without default gets
    none. *)

Module pycall.

(** The values passed as arguments. *)
Inductive pyarg :=
| ANone
| ABool (b : bool)
| AInt (n : Z)
| AStr (s : string)
| AObj (o : XMLObject)
| AElement (e : Element)
| ANameSpaces (d : name_spaces_dict)
| AVerbosity (v : Verbosity)
| AEnumClass (c : EnumClass)
| ATuple (items : list pyarg).

(** A parameter of a [def], with its default when it has one. *)
Record parameter := mkParam { param_name : string; param_default : option pyarg }.

(** The parameters before the [*] and those after it. *)
Record signature := mkSig {
  positional : list parameter;
  keyword_only : list parameter
}.

Abbreviation env := (gmap string pyarg).

Fixpoint bind_positional (ps : list parameter) (args : list pyarg) (e : env)
    : result env :=
  match args, ps with
  | [], _ => Ok e
  | a :: args', p :: ps' => bind_positional ps' args' (<[param_name p := a]> e)
  | _ :: _, [] => Raise TypeError
  end.

Fixpoint bind_keywords (names : list string) (kws : list (string * pyarg))
    (e : env) : result env :=
  match kws with
  | [] => Ok e
  | (k, v) :: rest =>
      if existsb (String.eqb k) names then
        match e !! k with
        | Some _ => Raise TypeError
        | None => bind_keywords names rest (<[k := v]> e)
        end
      else Raise TypeError
  end.

Fixpoint fill_defaults (ps : list parameter) (e : env) : result env :=
  match ps with
  | [] => Ok e
  | p :: ps' =>
      match e !! param_name p, param_default p with
      | Some _, _ => fill_defaults ps' e
      | None, Some d => fill_defaults ps' (<[param_name p := d]> e)
      | None, None => Raise TypeError
      end
  end.

Definition bind_arguments (sg : signature) (args : list pyarg)
    (kws : list (string * pyarg)) : result env :=
  let ps := (positional sg ++ keyword_only sg)%list in
  let* e1 := bind_positional (positional sg) args ∅ in
  let* e2 := bind_keywords (map param_name ps) kws e1 in
  fill_defaults ps e2.

(** A function object: the parameters of its [def] and its body on the
    bound arguments. *)
Record function (A : Type) := mkFunction {
  fn_signature : signature;
  fn_body : env -> result A
}.

Arguments mkFunction {A} _ _.
Arguments fn_signature {A} _.
Arguments fn_body {A} _ _.

(** The call of [f] with positional arguments [args] and keywords [kws]. *)
Definition call {A : Type} (f : function A) (args : list pyarg)
    (kws : list (string * pyarg)) : result A :=
  let* e := bind_arguments (fn_signature f) args kws in
  fn_body f e.

Definition required (name : string) : parameter := mkParam name None.
Definition optional (name : string) (d : pyarg) : parameter := mkParam name (Some d).

(** Reading a bound argument at the type its annotation gives; an argument
    of another type is outside this embedding and stands as [TypeError]. *)
Definition arg_obj (e : env) (k : string) : result XMLObject :=
  match e !! k with Some (AObj o) => Ok o | _ => Raise TypeError end.

Definition arg_element (e : env) (k : string) : result Element :=
  match e !! k with Some (AElement x) => Ok x | _ => Raise TypeError end.

Definition arg_str (e : env) (k : string) : result string :=
  match e !! k with Some (AStr s) => Ok s | _ => Raise TypeError end.

Definition arg_opt_str (e : env) (k : string) : result (option string) :=
  match e !! k with
  | Some (AStr s) => Ok (Some s)
  | Some ANone => Ok None
  | _ => Raise TypeError
  end.

Definition arg_bool (e : env) (k : string) : result bool :=
  match e !! k with Some (ABool b) => Ok b | _ => Raise TypeError end.

Definition arg_opt_int (e : env) (k : string) : result (option Z) :=
  match e !! k with
  | Some (AInt n) => Ok (Some n)
  | Some ANone => Ok None
  | _ => Raise TypeError
  end.

Definition arg_opt_verbosity (e : env) (k : string) : result (option Verbosity) :=
  match e !! k with
  | Some (AVerbosity v) => Ok (Some v)
  | Some ANone => Ok None
  | _ => Raise TypeError
  end.

Definition arg_opt_name_spaces (e : env) (k : string)
    : result (option name_spaces_dict) :=
  match e !! k with
  | Some (ANameSpaces d) => Ok (Some d)
  | Some ANone => Ok None
  | _ => Raise TypeError
  end.

Definition arg_enum_class (e : env) (k : string) : result EnumClass :=
  match e !! k with Some (AEnumClass c) => Ok c | _ => Raise TypeError end.

Definition of_opt_int (n : option Z) : pyarg :=
  match n with Some x => AInt x | None => ANone end.

Definition of_opt_name_spaces (d : option name_spaces_dict) : pyarg :=
  match d with Some x => ANameSpaces x | None => ANone end.

(** The body of an encoder on its bound arguments. *)
Definition encoder_body
    (f : XMLObject -> Element -> string -> option string -> option Z ->
         option Verbosity -> result Element) (e : env) : result Element :=
  let* obj := arg_obj e "obj" in
  let* element := arg_element e "element" in
  let* attr_name := arg_str e "attr_name" in
  let* node_name := arg_opt_str e "node_name" in
  let* precision := arg_opt_int e "precision" in
  let* verbosity := arg_opt_verbosity e "verbosity" in
  f obj element attr_name node_name precision verbosity.

(** [def f(obj, * , element, attr_name, node_name, precision=None,
    verbosity=None)]: [text_subelement], [bool_subelement],
    [int_subelement] and [enum_subelement]. *)
Definition encoder_signature : signature :=
  mkSig [required "obj"]
        [required "element"; required "attr_name"; required "node_name";
         optional "precision" ANone; optional "verbosity" ANone].

(** [def float_subelement(obj, * , element, attr_name, node_name, precision,
    verbosity=None)] *)
Definition float_encoder_signature : signature :=
  mkSig [required "obj"]
        [required "element"; required "attr_name"; required "node_name";
         required "precision"; optional "verbosity" ANone].

(** The body of a text, boolean, integer or float decoder. *)
Definition decoder_body
    (f : Element -> string -> option name_spaces_dict -> option string ->
         string -> bool -> result kwargs_dict) (e : env) : result kwargs_dict :=
  let* element := arg_element e "element" in
  let* ns := arg_str e "ns" in
  let* name_spaces := arg_opt_name_spaces e "name_spaces" in
  let* node_name := arg_opt_str e "node_name" in
  let* kwarg := arg_str e "kwarg" in
  let* strict := arg_bool e "strict" in
  f element ns name_spaces node_name kwarg strict.

(** [def f( * , element, ns, name_spaces=None, node_name, kwarg, strict)]:
    [subelement_text_kwarg], [subelement_bool_kwarg], [subelement_int_kwarg]
    and [subelement_float_kwarg]. *)
Definition decoder_signature : signature :=
  mkSig []
        [required "element"; required "ns"; optional "name_spaces" ANone;
         required "node_name"; required "kwarg"; required "strict"].

(** [def subelement_enum_kwarg( * , element, ns, name_spaces=None, node_name,
    kwarg, enum_class, strict)] *)
Definition enum_decoder_signature : signature :=
  mkSig []
        [required "element"; required "ns"; optional "name_spaces" ANone;
         required "node_name"; required "kwarg"; required "enum_class";
         required "strict"].

Definition text_subelement : function Element :=
  mkFunction encoder_signature (encoder_body helpers.text_subelement).

Definition enum_subelement : function Element :=
  mkFunction encoder_signature (encoder_body helpers.enum_subelement).

Definition float_subelement (repr_other : pyval -> string) : function Element :=
  mkFunction float_encoder_signature
    (encoder_body (helpers.float_subelement repr_other)).

Definition subelement_text_kwarg : function kwargs_dict :=
  mkFunction decoder_signature (decoder_body helpers.subelement_text_kwarg).

Definition subelement_float_kwarg : function kwargs_dict :=
  mkFunction decoder_signature (decoder_body helpers.subelement_float_kwarg).

Definition subelement_enum_kwarg : function kwargs_dict :=
  mkFunction enum_decoder_signature
    (fun e =>
       let* enum_class := arg_enum_class e "enum_class" in
       decoder_body
         (fun element ns name_spaces node_name kwarg strict =>
            helpers.subelement_enum_kwarg element ns name_spaces node_name
              kwarg enum_class strict) e).

End pycall.

(** ** [fastkml/links.py] *)

Module links.

Import pycall.

Section Link.

(** [str] on the values this embedding does not print. *)
Variable repr_other : pyval -> string.

(** [super().etree_element(precision=precision, verbosity=verbosity)] and
    [super()._get_kwargs(ns=ns, name_spaces=name_spaces, element=element,
    strict=strict)] of [fastkml.base._BaseObject], outside these sources. *)
Variable base_etree_element :
  XMLObject -> option Z -> option Verbosity -> result Element.
Variable base_get_kwargs :
  string -> option name_spaces_dict -> Element -> bool -> result kwargs_dict.

(** The enumerations [fastkml.enums.RefreshMode] and
    [fastkml.enums.ViewRefreshMode], outside these sources. *)
Variables RefreshMode ViewRefreshMode : EnumClass.

(** [kwargs.update(d)] *)
Definition update (kwargs d : kwargs_dict) : kwargs_dict := d ∪ kwargs.

Definition etree_element (self : XMLObject) (precision : option Z)
    (verbosity : option Verbosity) : result Element :=
  let* element := base_etree_element self precision verbosity in
  let* element :=
    call text_subelement [AObj self]
      [("element", AElement element); ("attr_name", AStr "href");
       ("node_name", AStr "href")] in
  let* element :=
    call text_subelement [AObj self]
      [("element", AElement element); ("attr_name", AStr "view_format");
       ("node_name", AStr "viewFormat")] in
  let* element :=
    call text_subelement [AObj self]
      [("element", AElement element); ("attr_name", AStr "http_query");
       ("node_name", AStr "httpQuery")] in
  let* element :=
    call enum_subelement [AObj self]
      [("element", AElement element); ("attr_name", AStr "refresh_mode");
       ("node_name", AStr "refreshMode")] in
  let* element :=
    call enum_subelement [AObj self]
      [("element", AElement element); ("attr_name", AStr "view_refresh_mode");
       ("node_name", AStr "viewRefreshMode")] in
  let* element :=
    call (float_subelement repr_other) [AObj self]
      [("element", AElement element); ("attr_name", AStr "view_refresh_time");
       ("node_name", AStr "viewRefreshTime");
       ("precision", of_opt_int precision)] in
  let* element :=
    call (float_subelement repr_other) [AObj self]
      [("element", AElement element); ("attr_name", AStr "refresh_interval");
       ("node_name", AStr "refreshInterval");
       ("precision", of_opt_int precision)] in
  let* element :=
    call (float_subelement repr_other) [AObj self]
      [("element", AElement element); ("attr_name", AStr "view_bound_scale");
       ("node_name", AStr "viewBoundScale");
       ("precision", of_opt_int precision)] in
  Ok element.

Definition _get_kwargs (ns : string) (name_spaces : option name_spaces_dict)
    (element : Element) (strict : bool) : result kwargs_dict :=
  let* kwargs := base_get_kwargs ns name_spaces element strict in
  let* d :=
    call subelement_text_kwarg []
      [("element", AElement element); ("ns", AStr ns);
       ("node_name", AStr "href"); ("kwarg", AStr "href");
       ("strict", ABool strict)] in
  let kwargs := update kwargs d in
  let* d :=
    call subelement_text_kwarg []
      [("element", AElement element); ("ns", AStr ns);
       ("node_name", AStr "viewFormat"); ("kwarg", AStr "view_format");
       ("strict", ABool strict)] in
  let kwargs := update kwargs d in
  let* d :=
    call subelement_text_kwarg []
      [("element", AElement element); ("ns", AStr ns);
       ("node_name", AStr "httpQuery"); ("kwarg", AStr "http_query");
       ("strict", ABool strict)] in
  let kwargs := update kwargs d in
  let* d :=
    call subelement_enum_kwarg []
      [("element", AElement element); ("ns", AStr ns);
       ("name_spaces", of_opt_name_spaces name_spaces);
       ("node_name", AStr "refreshMode"); ("kwarg", AStr "refresh_mode");
       ("classes", ATuple [AEnumClass RefreshMode]);
       ("strict", ABool strict)] in
  let kwargs := update kwargs d in
  let* d :=
    call subelement_enum_kwarg []
      [("element", AElement element); ("ns", AStr ns);
       ("name_spaces", of_opt_name_spaces name_spaces);
       ("node_name", AStr "viewRefreshMode"); ("kwarg", AStr "view_refresh_mode");
       ("classes", ATuple [AEnumClass ViewRefreshMode]);
       ("strict", ABool strict)] in
  let kwargs := update kwargs d in
  let* d :=
    call subelement_float_kwarg []
      [("element", AElement element); ("ns", AStr ns);
       ("node_name", AStr "refreshInterval"); ("kwarg", AStr "refresh_interval");
       ("strict", ABool strict)] in
  let kwargs := update kwargs d in
  let* d :=
    call subelement_float_kwarg []
      [("element", AElement element); ("ns", AStr ns);
       ("node_name", AStr "viewRefreshTime"); ("kwarg", AStr "view_refresh_time");
       ("strict", ABool strict)] in
  let kwargs := update kwargs d in
  let* d :=
    call subelement_float_kwarg []
      [("element", AElement element); ("ns", AStr ns);
       ("node_name", AStr "viewBoundScale"); ("kwarg", AStr "view_bound_scale");
       ("strict", ABool strict)] in
  let kwargs := update kwargs d in
  Ok kwargs.

End Link.

(** The class [Link(_BaseObject)], at the address [cls]; [bases] is the
    linearisation of [_BaseObject], which [fastkml.base] defines. *)
Definition Link (cls : positive) (bases : list positive) : pytype :=
  mkType cls "Link" (cls :: bases).

(** The attributes that [Link.__init__] sets on the instance. *)
Definition Link_attrs (href refresh_mode refresh_interval view_refresh_mode
    view_refresh_time view_bound_scale view_format http_query : pyval)
    : gmap string pyval :=
  <["http_query" := http_query]>
  (<["view_format" := view_format]>
  (<["view_bound_scale" := view_bound_scale]>
  (<["view_refresh_time" := view_refresh_time]>
  (<["view_refresh_mode" := view_refresh_mode]>
  (<["refresh_interval" := refresh_interval]>
  (<["refresh_mode" := refresh_mode]>
  (<["href" := href]> ∅))))))).

End links.

(** * Notions used in the statements *)

Import registry.

#[local] Open Scope list_scope.

(** ** The registry *)

(** The items registered on the class at [c] itself. *)
Definition direct (w : world) (c : positive) : list RegistryItem :=
  match _registry w !! c with
  | Some a => list_items w a
  | None => []
  end.

(** The ancestors of [cls] that [get] visits, most general first. *)
Definition parents (cls : pytype) : list positive := rev (removelast (__mro__ cls)).

(** The resolved sequence of [cls]. *)
Definition resolve (w : world) (cls : pytype) : list RegistryItem :=
  concat (map (direct w) (parents cls)).

(** The lists that the registry holds exist, and no two classes share one. *)
Definition wf (w : world) : Prop :=
  (forall c a, _registry w !! c = Some a -> a ∈ dom (lists w)) /\
  (forall c1 c2 a,
      _registry w !! c1 = Some a -> _registry w !! c2 = Some a -> c1 = c2).

(** [w'] has the dictionary of [w] and every list of [w] as it was. *)
Definition preserved (w w' : world) : Prop :=
  _registry w' = _registry w /\
  forall b, b ∈ dom (lists w) -> lists w' !! b = lists w !! b.

(** The registry after the calls [register(cls, item)] of [calls], in that
    order, on a new [Registry()]. *)
Definition registered (calls : list (pytype * RegistryItem)) : world :=
  fold_left (fun w call => register w call.1 call.2) calls init.

(** The items that [calls] registered on the class at [c], in call order. *)
Definition items_for (calls : list (pytype * RegistryItem)) (c : positive)
    : list RegistryItem :=
  map snd (List.filter (fun call => Pos.eqb c (class_id call.1)) calls).

(** ** Encoders that append *)

(** The children that a [SetElement] callable appends for [obj]: those it
    leaves on an element that had none. *)
Definition emitted (f : SetElement) (obj : XMLObject) (attr : string)
    (node : option string) (precision : option Z)
    (verbosity : option Verbosity) : result (list Element) :=
  let* e := f obj (mkElement "" None []) attr node precision verbosity in
  Ok (children e).

(** [f] does nothing to the element but append children to it. *)
Definition appends (f : SetElement) : Prop :=
  forall obj element attr node precision verbosity,
    f obj element attr node precision verbosity =
    let* cs := emitted f obj attr node precision verbosity in
    Ok (extend element cs).

(** What the descriptor [item] emits for [obj]. *)
Definition emit (obj : XMLObject) (precision : option Z)
    (verbosity : option Verbosity) (item : RegistryItem) : result (list Element) :=
  emitted (set_element item) obj (attr_name item) (node_name item)
    precision verbosity.

(** ** Decoders *)


(** The nested decode of one child by [obj_class]. *)
Definition decode_child (obj_class : XMLClass) (ns : string)
    (name_spaces : option name_spaces_dict) (strict : bool)
    (subelement : Element) : result pyval :=
  let* o := class_from_element obj_class ns name_spaces subelement strict in
  Ok (VObj o).

(** The children that [obj_class] matches, decoded in document order. *)
Definition decode_group (element : Element) (ns : string)
    (name_spaces : option name_spaces_dict) (strict : bool)
    (obj_class : XMLClass) : result (list pyval) :=
  mapM (decode_child obj_class ns name_spaces strict)
       (findall element (ns ++ get_tag_name obj_class)%string).

(** ** Example classes and descriptors *)

Module examples.

(** A callable that follows [GetKWArgs] and decodes a text child: it hands
    its arguments to [subelement_text_kwarg], with [attr_name] as [kwarg]. *)
Definition text_get_kwarg : GetKWArgs :=
  fun element ns name_spaces node_name attr_name classes strict =>
    helpers.subelement_text_kwarg element ns name_spaces node_name attr_name strict.

(** A descriptor of a text attribute. *)
Definition text_item (attr node : string) : RegistryItem :=
  mkItem [KStr] attr text_get_kwarg helpers.text_subelement (Some node).

Definition Base : pytype := mkType 2 "Base" [2; 1]%positive.
Definition Sub : pytype := mkType 3 "Sub" [3; 2; 1]%positive.

(** Another class that is called [Base], defined elsewhere; it is no
    ancestor of [Sub]. *)
Definition Base' : pytype := mkType 4 "Base" [4; 1]%positive.

(** [Base] registers [name]; [Sub] registers [title] and registers [name]
    again, under the node name [label]; the other [Base] registers
    [comment]. *)
Definition calls : list (pytype * RegistryItem) :=
  [(Sub, text_item "title" "title");
   (Base', text_item "comment" "comment");
   (Base, text_item "name" "name");
   (Sub, text_item "name" "label")].

(** An instance of [Sub] with a name, a title and a comment. *)
Definition sub_obj : XMLObject :=
  mkObject Sub ""
    (<["comment" := VStr "c"]> (<["title" := VStr "t"]> (<["name" := VStr "n"]> ∅)))
    true.

(** A node with a [name] child, a [label] child and a [comment] child. *)
Definition node : Element :=
  mkElement "Sub" None
    [mkElement "name" (Some "from base") []; mkElement "label" (Some "from sub") [];
     mkElement "comment" (Some "from elsewhere") []].

End examples.

(** ** The other helpers as function objects, and the keywords of the protocols *)

Module pydefs.

Import pycall.

(** [def f(obj, * , element, attr_name, node_name=None, precision,
    verbosity)]: [xml_subelement] and [xml_subelement_list]. *)
Definition xml_encoder_signature : signature :=
  mkSig [required "obj"]
        [required "element"; required "attr_name"; optional "node_name" ANone;
         required "precision"; required "verbosity"].

(** [def xml_subelement_kwarg( * , element, ns, name_spaces, node_name=None,
    kwarg, obj_class, strict)] *)
Definition xml_decoder_signature : signature :=
  mkSig []
        [required "element"; required "ns"; required "name_spaces";
         optional "node_name" ANone; required "kwarg"; required "obj_class";
         required "strict"].

(** [def xml_subelement_list_kwarg( * , element, ns, name_spaces, kwarg,
    obj_classes, strict)] *)
Definition xml_list_decoder_signature : signature :=
  mkSig []
        [required "element"; required "ns"; required "name_spaces";
         required "kwarg"; required "obj_classes"; required "strict"].

Definition bool_subelement : function Element :=
  mkFunction encoder_signature (encoder_body helpers.bool_subelement).

Definition int_subelement (repr_other : pyval -> string) : function Element :=
  mkFunction encoder_signature (encoder_body (helpers.int_subelement repr_other)).

Definition xml_subelement
    (etree_element : XMLObject -> option Z -> option Verbosity -> result Element)
    : function Element :=
  mkFunction xml_encoder_signature
    (encoder_body (helpers.xml_subelement etree_element)).

Definition xml_subelement_list
    (etree_element : XMLObject -> option Z -> option Verbosity -> result Element)
    : function Element :=
  mkFunction xml_encoder_signature
    (encoder_body (helpers.xml_subelement_list etree_element)).

Definition subelement_bool_kwarg : function kwargs_dict :=
  mkFunction decoder_signature (decoder_body helpers.subelement_bool_kwarg).

Definition subelement_int_kwarg : function kwargs_dict :=
  mkFunction decoder_signature (decoder_body helpers.subelement_int_kwarg).

Definition of_opt_str (s : option string) : pyarg :=
  match s with Some x => AStr x | None => ANone end.

Definition of_opt_verbosity (v : option Verbosity) : pyarg :=
  match v with Some x => AVerbosity x | None => ANone end.

(** The keywords of the call [item.set_element(obj=obj, element=element,
    attr_name=item.attr_name, node_name=item.node_name,
    precision=precision, verbosity=verbosity)] in [Registry.sub_element]. *)
Definition set_element_keywords (obj : XMLObject) (element : Element)
    (attr_name : string) (node_name : option string) (precision : option Z)
    (verbosity : option Verbosity) : list (string * pyarg) :=
  [("obj", AObj obj); ("element", AElement element);
   ("attr_name", AStr attr_name); ("node_name", of_opt_str node_name);
   ("precision", of_opt_int precision);
   ("verbosity", of_opt_verbosity verbosity)].

(** The keywords of the call [item.get_kwarg(element=element, ns=ns,
    name_spaces=name_spaces, node_name=item.node_name,
    attr_name=item.attr_name, classes=item.classes, strict=strict)] in
    [Registry.get_kwargs]; [classes] is the tuple as an argument. *)
Definition get_kwarg_keywords (element : Element) (ns : string)
    (name_spaces : option name_spaces_dict) (node_name : option string)
    (attr_name : string) (classes : pyarg) (strict : bool)
    : list (string * pyarg) :=
  [("element", AElement element); ("ns", AStr ns);
   ("name_spaces", of_opt_name_spaces name_spaces);
   ("node_name", of_opt_str node_name); ("attr_name", AStr attr_name);
   ("classes", classes); ("strict", ABool strict)].

End pydefs.

(** ** Text *)

(** The characters of [l] after the white space at its start. *)
Fixpoint lstrip_chars (l : list ascii) : list ascii :=
  match l with
  | c :: l' => if Py.isspace c then lstrip_chars l' else l
  | [] => []
  end.

(** No character of [s] is white space. *)
Definition no_space (s : string) : Prop :=
  Forall (fun c => Py.isspace c = false) (list_ascii_of_string s).

(** ** [Link]: the encoders of its attributes, in the order of the calls *)

(** The attribute name, the node name and the encoder of each call of
    [Link.etree_element]; the calls give no [verbosity]. *)
Definition Link_fields (repr_other : pyval -> string)
    : list (string * string * SetElement) :=
  [("href", "href", helpers.text_subelement);
   ("view_format", "viewFormat", helpers.text_subelement);
   ("http_query", "httpQuery", helpers.text_subelement);
   ("refresh_mode", "refreshMode", helpers.enum_subelement);
   ("view_refresh_mode", "viewRefreshMode", helpers.enum_subelement);
   ("view_refresh_time", "viewRefreshTime", helpers.float_subelement repr_other);
   ("refresh_interval", "refreshInterval", helpers.float_subelement repr_other);
   ("view_bound_scale", "viewBoundScale", helpers.float_subelement repr_other)].

(** ** Decimal digits *)

(** The digits of a decimal number, most significant first. *)
Fixpoint uint_digits (d : Decimal.uint) : list Z :=
  match d with
  | Decimal.Nil => []
  | Decimal.D0 d => 0 :: uint_digits d
  | Decimal.D1 d => 1 :: uint_digits d
  | Decimal.D2 d => 2 :: uint_digits d
  | Decimal.D3 d => 3 :: uint_digits d
  | Decimal.D4 d => 4 :: uint_digits d
  | Decimal.D5 d => 5 :: uint_digits d
  | Decimal.D6 d => 6 :: uint_digits d
  | Decimal.D7 d => 7 :: uint_digits d
  | Decimal.D8 d => 8 :: uint_digits d
  | Decimal.D9 d => 9 :: uint_digits d
  end.

(** ** More examples *)

Module more_examples.

(** A callable that follows [GetKWArgs] and decodes a boolean child. *)
Definition bool_get_kwarg : GetKWArgs :=
  fun element ns name_spaces node_name attr_name classes strict =>
    helpers.subelement_bool_kwarg element ns name_spaces node_name attr_name strict.

(** A descriptor of a boolean attribute. *)
Definition bool_item (attr node : string) : RegistryItem :=
  mkItem [KBool] attr bool_get_kwarg helpers.bool_subelement (Some node).

(** [Base] registers a name, a visibility and a description. *)
Definition calls : list (pytype * RegistryItem) :=
  [(examples.Base, examples.text_item "name" "name");
   (examples.Base, bool_item "visibility" "visibility");
   (examples.Base, examples.text_item "description" "description")].

(** A node whose visibility is no number. *)
Definition node : Element :=
  mkElement "Base" None
    [mkElement "name" (Some "n") []; mkElement "visibility" (Some "maybe") [];
     mkElement "description" (Some "d") []].

(** An instance whose visibility is a text that is no number. *)
Definition obj : XMLObject :=
  mkObject examples.Base ""
    (<["visibility" := VStr "yes"]> (<["name" := VStr "n"]> ∅)) true.

(** A class without registrations, and an instance of it. *)
Definition Other : pytype := mkType 5 "Other" [5; 1]%positive.
Definition other_obj : XMLObject := mkObject Other "" ∅ true.

(** A class of nested objects: an instance is written as an element with
    the tag [Placemark] and its name as text, and read back from it. *)
Definition Placemark_type : pytype := mkType 6 "Placemark" [6; 1]%positive.

Definition placemark (ns name : string) : XMLObject :=
  mkObject Placemark_type ns {[ "name" := VStr name ]} true.

Definition placemark_etree_element (o : XMLObject) (precision : option Z)
    (verbosity : option Verbosity) : result Element :=
  match getattr o "name" with
  | VStr name => Ok (mkElement (obj_ns o ++ "Placemark") (Some name) [])
  | _ => Raise AttributeError
  end.

Definition Placemark : XMLClass :=
  mkClass Placemark_type "Placemark"
    (fun ns name_spaces element strict =>
       Ok (placemark ns (default EmptyString (text element)))).

(** A folder with one placemark as [feature] and two as [features]. *)
Definition folder : XMLObject :=
  mkObject examples.Base ""
    (<["features" := VList [VObj (placemark "" "a"); VObj (placemark "" "b")]]>
       (<["feature" := VObj (placemark "" "c")]> ∅)) true.

End more_examples.

(** ** [Link.etree_element] *)

(** What the call of [Link.etree_element] for one attribute emits. *)
Definition Link_emit (self : XMLObject) (precision : option Z)
    (field : string * string * SetElement) : result (list Element) :=
  emitted field.2 self field.1.1 (Some field.1.2) precision None.


(** The attributes of [self] hold values of the types that [Link] declares
    for them, where the encoders depend on it: a text or [None], a member
    of an enumeration or [None]. *)
Definition Link_well_typed (self : XMLObject) : Prop :=
  (forall a, In a ["href"; "view_format"; "http_query"] ->
     getattr self a = VNone \/ exists t, getattr self a = VStr t) /\
  (forall a, In a ["refresh_mode"; "view_refresh_mode"] ->
     getattr self a = VNone \/ exists m, getattr self a = VEnum m).

(** * Properties *)

(** ** Results *)

Lemma bind_Ok {A B : Type} (r : result A) (k : A -> result B) (b : B) :
  bind r k = Ok b -> exists a, r = Ok a /\ k a = Ok b.
Proof. destruct r as [a|e]; simpl; [eauto | discriminate]. Qed.

Lemma mapM_app {A B : Type} (f : A -> result B) (xs ys : list A) :
  mapM f (xs ++ ys) =
  let* us := mapM f xs in let* vs := mapM f ys in Ok (us ++ vs).
Proof.
  induction xs as [|x xs IH]; simpl.
  - destruct (mapM f ys); reflexivity.
  - destruct (f x) as [y|e]; simpl; [|reflexivity].
    rewrite IH. destruct (mapM f xs) as [us|e]; simpl; [|reflexivity].
    destruct (mapM f ys); reflexivity.
Qed.

(** ** The registry *)

Lemma wf_init : wf init.
Proof. split; intros *; simpl; rewrite lookup_empty; discriminate. Qed.

Lemma preserved_refl w : preserved w w.
Proof. split; auto. Qed.

Lemma preserved_dom w w' b :
  preserved w w' -> b ∈ dom (lists w) -> b ∈ dom (lists w').
Proof.
  intros [_ H] Hb. specialize (H b Hb).
  apply elem_of_dom. rewrite H. by apply elem_of_dom.
Qed.

Lemma preserved_trans w1 w2 w3 :
  preserved w1 w2 -> preserved w2 w3 -> preserved w1 w3.
Proof.
  intros H12 H23. split.
  - destruct H12 as [H12 _], H23 as [H23 _]. congruence.
  - intros b Hb. destruct H23 as [_ H23]. rewrite H23.
    + by apply H12.
    + by eapply preserved_dom.
Qed.

Lemma preserved_wf w w' : wf w -> preserved w w' -> wf w'.
Proof.
  intros [Hdom Hinj] Hp. split.
  - intros c a Hc. eapply preserved_dom; [done|].
    destruct Hp as [Hr _]. rewrite Hr in Hc. eauto.
  - destruct Hp as [Hr _]. rewrite Hr. exact Hinj.
Qed.

Lemma preserved_direct w w' c : wf w -> preserved w w' -> direct w' c = direct w c.
Proof.
  intros [Hdom _] [Hr Hl]. unfold direct, list_items. rewrite Hr.
  destruct (_registry w !! c) as [a|] eqn:Hc; [|done].
  rewrite Hl; eauto.
Qed.

Lemma preserved_resolve w w' cls :
  wf w -> preserved w w' -> resolve w' cls = resolve w cls.
Proof.
  intros Hwf Hp. unfold resolve. f_equal. apply map_ext.
  intros c. by apply preserved_direct.
Qed.

Lemma new_list_fresh w l : (new_list w l).1 ∉ dom (lists w).
Proof. apply is_fresh. Qed.

Lemma new_list_lookup w l : lists (new_list w l).2 !! (new_list w l).1 = Some l.
Proof. simpl. apply lookup_insert_eq. Qed.

Lemma new_list_preserved w l : preserved w (new_list w l).2.
Proof.
  split; [done|]. intros b Hb. simpl.
  rewrite lookup_insert_ne; [done|].
  intros <-. by apply (new_list_fresh w l).
Qed.

(** Overwriting a list that [w] does not hold leaves [w] preserved. *)
Lemma preserved_mutate w w' a l :
  preserved w w' -> a ∉ dom (lists w) ->
  preserved w (mkWorld (<[a := l]> (lists w')) (_registry w')).
Proof.
  intros [Hr Hl] Ha. split; [done|]. intros b Hb. simpl.
  rewrite lookup_insert_ne; [auto|]. intros <-. done.
Qed.

Lemma list_extend_preserved w w' a xs :
  preserved w w' -> a ∉ dom (lists w) -> preserved w (list_extend w' a xs).
Proof.
  intros [Hr Hl] Ha. split; [done|]. intros b Hb. simpl.
  rewrite lookup_alter_ne; [auto|]. intros <-. done.
Qed.

(** [self._registry.get(key, [])] yields a list with the items registered on
    [key], and stores nothing. *)
Lemma registry_get_spec w0 w key :
  wf w0 -> preserved w0 w ->
  preserved w0 (registry_get w key).2 /\
  preserved w (registry_get w key).2 /\
  list_items (registry_get w key).2 (registry_get w key).1 = direct w0 key.
Proof.
  intros Hwf Hp. unfold registry_get.
  pose proof (new_list_preserved w []) as Hn.
  pose proof (new_list_fresh w []) as Hf.
  destruct (new_list w []) as [d w1] eqn:E. simpl in *.
  split; [by eapply preserved_trans|]. split; [done|].
  assert (w1 = mkWorld (<[d := []]> (lists w)) (_registry w)) as ->.
  { unfold new_list in E. by injection E as <- <-. }
  simpl. unfold direct. destruct Hp as [Hr Hl]. rewrite Hr.
  destruct (_registry w0 !! key) as [a|] eqn:Hk; simpl.
  - destruct Hwf as [Hdom _]. specialize (Hdom _ _ Hk).
    unfold list_items. simpl. rewrite lookup_insert_ne.
    + by rewrite Hl.
    + intros <-. apply Hf. apply elem_of_dom. rewrite Hl; [|done].
      by apply elem_of_dom.
  - unfold list_items. simpl. by rewrite lookup_insert_eq.
Qed.

Lemma get_loop_spec w0 items ps :
  wf w0 -> items ∉ dom (lists w0) ->
  forall w acc,
    preserved w0 w -> lists w !! items = Some acc ->
    preserved w0 (get_loop w items ps) /\
    lists (get_loop w items ps) !! items = Some (acc ++ concat (map (direct w0) ps)).
Proof.
  intros Hwf Hit. induction ps as [|p ps IH]; intros w acc Hp Hacc;
    cbn [get_loop map concat].
  - by rewrite app_nil_r.
  - destruct (registry_get_spec w0 w p Hwf Hp) as (Hp1 & Hpw & Hitems).
    destruct (registry_get w p) as [l w1] eqn:E. cbn [fst snd] in *.
    rewrite Hitems.
    destruct (IH (list_extend w1 items (direct w0 p)) (acc ++ direct w0 p)) as [H1 H2].
    + by apply list_extend_preserved.
    + simpl. rewrite lookup_alter_eq.
      destruct Hpw as [_ Hl]. rewrite Hl.
      * by rewrite Hacc.
      * apply elem_of_dom. by rewrite Hacc.
    + split; [done|]. by rewrite H2, <- app_assoc.
Qed.

(** [get] builds a list at a new address, holding the resolved sequence,
    and leaves the registry and its lists as they were. *)
Lemma get_spec w cls :
  wf w ->
  ((get w cls).1 ∉ dom (lists w)) /\
  preserved w (get w cls).2 /\
  list_items (get w cls).2 (get w cls).1 = resolve w cls.
Proof.
  intros Hwf. unfold get.
  pose proof (new_list_fresh w []) as Hf.
  pose proof (new_list_preserved w []) as Hp.
  pose proof (new_list_lookup w []) as Hl.
  destruct (new_list w []) as [items w1]. simpl in *.
  destruct (get_loop_spec w items (rev (removelast (__mro__ cls))) Hwf Hf w1 [] Hp Hl)
    as [H1 H2].
  split; [done|]. split; [done|].
  unfold list_items. by rewrite H2.
Qed.

(** [register] appends the item to the list of the class and leaves the
    lists of the other classes as they were. *)
Lemma register_spec w cls item :
  wf w ->
  wf (register w cls item) /\
  forall c,
    direct (register w cls item) c =
    if Pos.eqb c (class_id cls) then direct w c ++ [item] else direct w c.
Proof.
  intros [Hdom Hinj]. unfold register, registry_get.
  pose proof (new_list_fresh w []) as Hf. simpl in *.
  set (d := fresh (dom (lists w))) in *.
  destruct (_registry w !! class_id cls) as [a|] eqn:Hk; simpl.
  - assert (a <> d) as Had by (intros ->; apply Hf; eauto).
    split.
    + split; simpl.
      * intros c b Hc. rewrite dom_alter_L, dom_insert_L.
        rewrite insert_id in Hc by done. specialize (Hdom _ _ Hc). set_solver.
      * rewrite insert_id by done. exact Hinj.
    + intros c. unfold direct, list_items. simpl.
      rewrite insert_id by done.
      destruct (Pos.eqb_spec c (class_id cls)) as [->|Hne].
      * rewrite Hk. rewrite lookup_alter_eq, lookup_insert_ne by done.
        pose proof (Hdom _ _ Hk) as Ha. apply elem_of_dom in Ha as [l Hl].
        by rewrite Hl.
      * destruct (_registry w !! c) as [b|] eqn:Hc; [|done].
        assert (b <> a) by (intros ->; apply Hne; eauto).
        assert (b <> d) by (intros ->; apply Hf; eauto).
        by rewrite lookup_alter_ne, lookup_insert_ne.
  - split.
    + split; simpl.
      * intros c b Hc. rewrite dom_alter_L, dom_insert_L.
        destruct (decide (c = class_id cls)) as [->|Hne].
        -- rewrite lookup_insert_eq in Hc. injection Hc as <-. set_solver.
        -- rewrite lookup_insert_ne in Hc by done. specialize (Hdom _ _ Hc).
           set_solver.
      * intros c1 c2 b H1 H2.
        destruct (decide (c1 = class_id cls)) as [->|Hn1];
          destruct (decide (c2 = class_id cls)) as [->|Hn2]; [done| | |].
        -- rewrite lookup_insert_eq in H1. injection H1 as <-.
           rewrite lookup_insert_ne in H2 by done. exfalso. apply Hf. eauto.
        -- rewrite lookup_insert_eq in H2. injection H2 as <-.
           rewrite lookup_insert_ne in H1 by done. exfalso. apply Hf. eauto.
        -- rewrite lookup_insert_ne in H1, H2 by done. eauto.
    + intros c. unfold direct, list_items. simpl.
      destruct (Pos.eqb_spec c (class_id cls)) as [->|Hne].
      * rewrite lookup_insert_eq, Hk, lookup_alter_eq, lookup_insert_eq. done.
      * rewrite lookup_insert_ne by done.
        destruct (_registry w !! c) as [b|] eqn:Hc; [|done].
        assert (b <> d) by (intros ->; apply Hf; eauto).
        by rewrite lookup_alter_ne, lookup_insert_ne.
Qed.

Lemma registered_spec calls :
  wf (registered calls) /\
  forall c, direct (registered calls) c = items_for calls c.
Proof.
  induction calls as [|[cls item] calls [IHwf IHd]] using rev_ind.
  - split; [apply wf_init|]. intros c. unfold direct. simpl.
    by rewrite lookup_empty.
  - unfold registered. rewrite fold_left_app. simpl.
    fold (registered calls).
    destruct (register_spec (registered calls) cls item IHwf) as [Hwf Hd].
    split; [done|]. intros c. rewrite Hd, IHd.
    unfold items_for. rewrite List.filter_app, map_app. simpl.
    destruct (Pos.eqb c (class_id cls)); simpl; [done|by rewrite app_nil_r].
Qed.

(** The ancestors visited for a class whose linearisation runs from the
    class over [bases] to [top]: [bases] most general first, then the class. *)
Lemma parents_mro cls bases top :
  __mro__ cls = class_id cls :: bases ++ [top] ->
  parents cls = rev bases ++ [class_id cls].
Proof.
  intros H. unfold parents. rewrite H.
  change (class_id cls :: bases ++ [top]) with ((class_id cls :: bases) ++ [top]).
  by rewrite removelast_last.
Qed.

Lemma resolve_mro w cls bases top :
  __mro__ cls = class_id cls :: bases ++ [top] ->
  resolve w cls = concat (map (direct w) (rev bases)) ++ direct w (class_id cls).
Proof.
  intros H. unfold resolve. rewrite (parents_mro _ _ _ H).
  rewrite map_app, concat_app. simpl. by rewrite app_nil_r.
Qed.

(** [get_kwargs] and [sub_element] run their loops over the resolved
    sequence and leave the registry and its lists as they were. *)
Lemma get_kwargs_spec w cls element ns name_spaces strict :
  wf w ->
  (get_kwargs w cls element ns name_spaces strict).1 =
    get_kwargs_loop (resolve w cls) element ns name_spaces strict ∅ /\
  preserved w (get_kwargs w cls element ns name_spaces strict).2.
Proof.
  intros Hwf. unfold get_kwargs.
  destruct (get_spec w cls Hwf) as (_ & Hp & Hitems).
  destruct (get w cls) as [items w1]. simpl in *. by rewrite Hitems.
Qed.

Lemma sub_element_spec w obj element precision verbosity :
  wf w ->
  (sub_element w obj element precision verbosity).1 =
    sub_element_loop (resolve w (obj_type obj)) obj element precision verbosity /\
  preserved w (sub_element w obj element precision verbosity).2.
Proof.
  intros Hwf. unfold sub_element.
  destruct (get_spec w (obj_type obj) Hwf) as (_ & Hp & Hitems).
  destruct (get w (obj_type obj)) as [items w1]. simpl in *. by rewrite Hitems.
Qed.

(** C3. After any sequence of [register] calls on a new registry, [get]
    returns, for a class whose linearisation runs from the class over its
    ancestors [bases] to [object], the items registered on each ancestor,
    the most general ancestor first and the class itself last; the items of
    one class are in the order of the calls that registered them. The
    classes are told apart as the dictionary tells them apart, by identity:
    what was registered on another class of the same name is not returned. *)
Theorem get_returns_ancestor_concatenation
    (calls : list (pytype * RegistryItem)) (cls : pytype)
    (bases : list positive) (top : positive) :
  __mro__ cls = class_id cls :: bases ++ [top] ->
  lists (get (registered calls) cls).2 !! (get (registered calls) cls).1 =
    Some (concat (map (items_for calls) (rev bases))
            ++ items_for calls (class_id cls)).
Proof.
  intros Hmro.
  destruct (registered_spec calls) as [Hwf Hd].
  pose proof (get_spec (registered calls) cls Hwf) as (Hfresh & Hp & Hitems).
  unfold get in *.
  pose proof (new_list_fresh (registered calls) []) as Hf.
  pose proof (new_list_preserved (registered calls) []) as Hn.
  pose proof (new_list_lookup (registered calls) []) as Hl.
  destruct (new_list (registered calls) []) as [items w1]. simpl in *.
  destruct (get_loop_spec (registered calls) items
              (rev (removelast (__mro__ cls))) Hwf Hf w1 [] Hn Hl) as [_ H2].
  rewrite H2. simpl. f_equal.
  change (rev (removelast (__mro__ cls))) with (parents cls).
  rewrite (parents_mro _ _ _ Hmro), map_app, concat_app. simpl.
  rewrite app_nil_r, Hd. f_equal. f_equal. apply map_ext. exact Hd.
Qed.

Lemma resolve_registered calls cls :
  resolve (registered calls) cls = concat (map (items_for calls) (parents cls)).
Proof.
  unfold resolve. f_equal. apply map_ext. apply registered_spec.
Qed.

Lemma get_returns_ancestor_concatenation_witness :
  __mro__ examples.Sub =
    class_id examples.Sub :: [class_id examples.Base] ++ [class_id object] /\
  lists (get (registered examples.calls) examples.Sub).2
    !! (get (registered examples.calls) examples.Sub).1 =
    Some [examples.text_item "name" "name"; examples.text_item "title" "title";
          examples.text_item "name" "label"].
Proof.
  split; [reflexivity|].
  rewrite (get_returns_ancestor_concatenation examples.calls examples.Sub
             [class_id examples.Base] (class_id object) eq_refl).
  reflexivity.
Defined.

(** The registry keeps two classes of one name apart: what the other [Base]
    registered is returned for neither [Base] nor [Sub]. *)
Example get_ignores_class_of_same_name :
  let w := registered examples.calls in
  __name__ examples.Base' = __name__ examples.Base /\
  list_items (get w examples.Base).2 (get w examples.Base).1 =
    [examples.text_item "name" "name"] /\
  list_items (get w examples.Base').2 (get w examples.Base').1 =
    [examples.text_item "comment" "comment"].
Proof.
  intros w.
  assert (wf w) as Hwf by apply registered_spec.
  split; [reflexivity|].
  destruct (get_spec w examples.Base Hwf) as (_ & _ & ->).
  destruct (get_spec w examples.Base' Hwf) as (_ & _ & ->).
  unfold w. rewrite !resolve_registered. split; reflexivity.
Qed.

(** C10. [get] and [get_kwargs] leave the dictionary of the registry and
    the lists it holds as they were, so a class without registrations gets
    no entry; the list that [get] returns is a new one, and whatever a
    caller writes into it, later calls of [get], [get_kwargs] and
    [sub_element] give what they gave before. *)
Theorem queries_leave_registry_unchanged (w : world) (cls : pytype) :
  wf w ->
  (_registry (get w cls).2 = _registry w /\
   forall c, direct (get w cls).2 c = direct w c) /\
  (forall element ns name_spaces strict,
     _registry (get_kwargs w cls element ns name_spaces strict).2 = _registry w /\
     forall c, direct (get_kwargs w cls element ns name_spaces strict).2 c = direct w c) /\
  ((get w cls).1 ∉ dom (lists w)) /\
  forall (l : list RegistryItem) (cls' : pytype),
    let wm := mkWorld (<[(get w cls).1 := l]> (lists (get w cls).2))
                (_registry (get w cls).2) in
    list_items (get wm cls').2 (get wm cls').1 =
      list_items (get w cls').2 (get w cls').1 /\
    (forall element ns name_spaces strict,
       (get_kwargs wm cls' element ns name_spaces strict).1 =
       (get_kwargs w cls' element ns name_spaces strict).1) /\
    (forall obj element precision verbosity,
       (sub_element wm obj element precision verbosity).1 =
       (sub_element w obj element precision verbosity).1).
Proof.
  intros Hwf.
  destruct (get_spec w cls Hwf) as (Hfresh & Hp & _).
  split; [|split; [|split]].
  - split; [apply Hp|]. intros c. by apply preserved_direct.
  - intros element ns name_spaces strict.
    destruct (get_kwargs_spec w cls element ns name_spaces strict Hwf) as [_ Hk].
    split; [apply Hk|]. intros c. by apply preserved_direct.
  - exact Hfresh.
  - intros l cls' wm.
    assert (preserved w wm) as Hm by (by apply preserved_mutate).
    pose proof (preserved_wf _ _ Hwf Hm) as Hwfm.
    split; [|split].
    + destruct (get_spec wm cls' Hwfm) as (_ & _ & ->).
      destruct (get_spec w cls' Hwf) as (_ & _ & ->).
      by apply preserved_resolve.
    + intros element ns name_spaces strict.
      destruct (get_kwargs_spec wm cls' element ns name_spaces strict Hwfm) as [-> _].
      destruct (get_kwargs_spec w cls' element ns name_spaces strict Hwf) as [-> _].
      by rewrite (preserved_resolve w wm).
    + intros obj element precision verbosity.
      destruct (sub_element_spec wm obj element precision verbosity Hwfm) as [-> _].
      destruct (sub_element_spec w obj element precision verbosity Hwf) as [-> _].
      by rewrite (preserved_resolve w wm).
Qed.

Lemma queries_leave_registry_unchanged_witness :
  let w := registered examples.calls in
  let other := mkType 5 "Other" [5; 1]%positive in
  wf w /\
  _registry (get w other).2 = _registry w /\
  _registry w !! class_id other = None /\
  ((get w other).1 ∉ dom (lists w)) /\
  forall l,
    list_items
      (get (mkWorld (<[(get w other).1 := l]> (lists (get w other).2))
              (_registry (get w other).2)) examples.Sub).2
      (get (mkWorld (<[(get w other).1 := l]> (lists (get w other).2))
              (_registry (get w other).2)) examples.Sub).1 =
    list_items (get w examples.Sub).2 (get w examples.Sub).1.
Proof.
  intros w other.
  assert (wf w) as Hwf by apply registered_spec.
  destruct (queries_leave_registry_unchanged w other Hwf)
    as ((Hreg & _) & _ & Hfresh & Hmut).
  split; [exact Hwf|]. split; [exact Hreg|]. split; [vm_compute; reflexivity|].
  split; [exact Hfresh|]. intros l. apply (Hmut l examples.Sub).
Defined.

(** ** Encoding through the registry *)

Lemma extend_nil element : extend element [] = element.
Proof. destruct element. unfold extend. simpl. by rewrite app_nil_r. Qed.

Lemma extend_extend element cs ds :
  extend (extend element cs) ds = extend element (cs ++ ds).
Proof. unfold extend. simpl. by rewrite app_assoc. Qed.

Lemma sub_element_loop_appends items obj precision verbosity :
  (forall item, In item items -> appends (set_element item)) ->
  forall element,
    sub_element_loop items obj element precision verbosity =
    let* css := mapM (emit obj precision verbosity) items in
    Ok (extend element (concat css)).
Proof.
  induction items as [|item items IH]; intros Happ element; simpl.
  - by rewrite extend_nil.
  - rewrite (Happ item (or_introl eq_refl)). fold (emit obj precision verbosity item).
    destruct (emit obj precision verbosity item) as [cs|e]; simpl; [|done].
    rewrite IH by (intros; apply Happ; by right).
    destruct (mapM (emit obj precision verbosity) items) as [css|e]; simpl; [|done].
    by rewrite extend_extend.
Qed.

Section EncodersAppend.

Variable repr_other : pyval -> string.
Variable etree_element : XMLObject -> option Z -> option Verbosity -> result Element.

Lemma text_subelement_appends : appends helpers.text_subelement.
Proof.
  intros obj element attr node p v.
  unfold emitted, helpers.text_subelement.
  destruct (truthy (getattr obj attr)); simpl; [|by rewrite extend_nil].
  by destruct (helpers.text_of (getattr obj attr)).
Qed.

Lemma bool_subelement_appends : appends helpers.bool_subelement.
Proof.
  intros obj element attr node p v.
  unfold emitted, helpers.bool_subelement.
  destruct (negb (is_none (getattr obj attr))); simpl; [|by rewrite extend_nil].
  by destruct (py_int (getattr obj attr)).
Qed.

Lemma int_subelement_appends : appends (helpers.int_subelement repr_other).
Proof.
  intros obj element attr node p v.
  unfold emitted, helpers.int_subelement.
  destruct (negb (is_none (getattr obj attr))); simpl; [done|by rewrite extend_nil].
Qed.

Lemma float_subelement_appends : appends (helpers.float_subelement repr_other).
Proof.
  intros obj element attr node p v.
  unfold emitted, helpers.float_subelement.
  destruct (negb (is_none (getattr obj attr))); simpl; [done|by rewrite extend_nil].
Qed.

Lemma enum_subelement_appends : appends helpers.enum_subelement.
Proof.
  intros obj element attr node p v.
  unfold emitted, helpers.enum_subelement.
  destruct (truthy (getattr obj attr)); simpl; [|by rewrite extend_nil].
  by destruct (helpers.value_of (getattr obj attr)).
Qed.

Lemma xml_subelement_appends : appends (helpers.xml_subelement etree_element).
Proof.
  intros obj element attr node p v.
  unfold emitted, helpers.xml_subelement.
  destruct (truthy (getattr obj attr)); simpl; [|by rewrite extend_nil].
  by destruct (helpers.etree_element_of etree_element (getattr obj attr) p v).
Qed.

Lemma append_each_extend items p v :
  forall element,
    helpers.append_each etree_element element items p v =
    let* cs := mapM (fun item => helpers.etree_element_of etree_element item p v) items in
    Ok (extend element cs).
Proof.
  induction items as [|item items IH]; intros element; simpl.
  - by rewrite extend_nil.
  - destruct (helpers.etree_element_of etree_element item p v) as [c|e]; simpl; [|done].
    rewrite IH.
    destruct (mapM (fun item => helpers.etree_element_of etree_element item p v) items);
      simpl; [|done].
    unfold append. by rewrite extend_extend.
Qed.

Lemma xml_subelement_list_appends :
  appends (helpers.xml_subelement_list etree_element).
Proof.
  intros obj element attr node p v.
  unfold emitted, helpers.xml_subelement_list.
  destruct (truthy (getattr obj attr)); simpl; [|by rewrite extend_nil].
  destruct (helpers.iterate (getattr obj attr)) as [items|e]; simpl; [|done].
  rewrite !append_each_extend.
  by destruct (mapM (fun item => helpers.etree_element_of etree_element item p v) items).
Qed.

End EncodersAppend.

(** C4. [sub_element] calls the encoder of every descriptor of the resolved
    sequence once, in resolution order: when the encoders only append, the
    children of the element are those it had, then what the descriptors of
    the ancestors emit, most general ancestor first, then what the
    descriptors of the class itself emit. A descriptor that the class
    registers for an attribute of an ancestor is one more descriptor of the
    sequence and emits its own children after the ancestor's. The
    descriptors of a class that is no ancestor are not called, whatever its
    name. *)
Theorem sub_element_fires_in_resolution_order (w : world) (obj : XMLObject)
    (element : Element) (precision : option Z) (verbosity : option Verbosity)
    (bases : list positive) (top : positive) :
  wf w ->
  __mro__ (obj_type obj) = class_id (obj_type obj) :: bases ++ [top] ->
  (forall item, In item (resolve w (obj_type obj)) -> appends (set_element item)) ->
  (sub_element w obj element precision verbosity).1 =
    let* from_bases :=
      mapM (emit obj precision verbosity) (concat (map (direct w) (rev bases))) in
    let* from_class :=
      mapM (emit obj precision verbosity) (direct w (class_id (obj_type obj))) in
    Ok (extend element (concat from_bases ++ concat from_class)).
Proof.
  intros Hwf Hmro Happ.
  destruct (sub_element_spec w obj element precision verbosity Hwf) as [-> _].
  rewrite sub_element_loop_appends by done.
  rewrite (resolve_mro _ _ _ _ Hmro), mapM_app.
  destruct (mapM _ (concat _)) as [us|e]; simpl; [|done].
  destruct (mapM _ (direct _ _)) as [vs|e]; simpl; [|done].
  by rewrite concat_app.
Qed.

Lemma sub_element_fires_in_resolution_order_witness :
  let w := registered examples.calls in
  wf w /\
  __mro__ examples.Sub =
    class_id examples.Sub :: [class_id examples.Base] ++ [class_id object] /\
  (forall item, In item (resolve w examples.Sub) -> appends (set_element item)) /\
  (sub_element w examples.sub_obj (mkElement "Sub" None []) None None).1 =
    Ok (mkElement "Sub" None
          [mkElement "name" (Some "n") [];
           mkElement "title" (Some "t") [];
           mkElement "label" (Some "n") []]).
Proof.
  intros w.
  assert (wf w) as Hwf by apply registered_spec.
  assert (forall item, In item (resolve w examples.Sub) -> appends (set_element item))
    as Happ.
  { unfold w. rewrite resolve_registered. simpl.
    intros item [<-|[<-|[<-|[]]]]; apply text_subelement_appends. }
  split; [exact Hwf|]. split; [reflexivity|]. split; [exact Happ|].
  rewrite (sub_element_fires_in_resolution_order w examples.sub_obj
             (mkElement "Sub" None []) None None [class_id examples.Base]
             (class_id object) Hwf eq_refl Happ).
  unfold w. simpl. rewrite !(proj2 (registered_spec examples.calls)).
  vm_compute. reflexivity.
Defined.

(** ** Decoding through the registry *)

Lemma get_kwargs_loop_app xs ys element ns name_spaces strict kwargs :
  get_kwargs_loop (xs ++ ys) element ns name_spaces strict kwargs =
  let* kwargs' := get_kwargs_loop xs element ns name_spaces strict kwargs in
  get_kwargs_loop ys element ns name_spaces strict kwargs'.
Proof.
  revert kwargs. induction xs as [|x xs IH]; intros kwargs; simpl; [done|].
  destruct (get_kwarg x _ _ _ _ _ _ _); simpl; [apply IH|done].
Qed.

(** The loop returns a mapping when every decode function does. *)
Lemma get_kwargs_loop_ok_prefix before element ns name_spaces strict :
  (forall i, In i before ->
     exists r, get_kwarg i element ns name_spaces (node_name i) (attr_name i)
                 (classes i) strict = Ok r) ->
  forall kwargs,
    exists m, get_kwargs_loop before element ns name_spaces strict kwargs = Ok m.
Proof.
  induction before as [|x xs IH]; intros Hok kwargs; simpl; [eauto|].
  destruct (Hok x (or_introl eq_refl)) as [r ->]. simpl.
  apply IH. intros i Hi. apply Hok. by right.
Qed.

(** The loop writes under the attribute names of its items only. *)
Lemma get_kwargs_loop_other items element ns name_spaces strict key :
  (forall item, In item items -> attr_name item <> key) ->
  forall kwargs m,
    get_kwargs_loop items element ns name_spaces strict kwargs = Ok m ->
    m !! key = kwargs !! key.
Proof.
  induction items as [|x xs IH]; intros Hne kwargs m H; simpl in H.
  - by injection H as <-.
  - apply bind_Ok in H as (r & _ & H).
    rewrite (IH (fun i Hi => Hne i (or_intror Hi)) _ _ H).
    apply lookup_insert_ne, Hne. by left.
Qed.

(** Under the attribute name of a descriptor the mapping holds the whole
    mapping that the decode function of the last descriptor with that name
    returned. *)
Lemma get_kwargs_loop_last_wins before item after element ns name_spaces strict m :
  (forall later, In later after -> attr_name later <> attr_name item) ->
  get_kwargs_loop (before ++ item :: after) element ns name_spaces strict ∅ = Ok m ->
  exists r,
    get_kwarg item element ns name_spaces (node_name item) (attr_name item)
      (classes item) strict = Ok r /\
    m !! attr_name item = Some (VDict r).
Proof.
  intros Hlater H. rewrite get_kwargs_loop_app in H.
  apply bind_Ok in H as (k1 & _ & H). simpl in H.
  apply bind_Ok in H as (r & Hr & H).
  exists r. split; [done|].
  rewrite (get_kwargs_loop_other _ _ _ _ _ _ Hlater _ _ H).
  apply lookup_insert_eq.
Qed.

(** Every descriptor of the sequence leaves an entry, and the entry is a
    mapping. *)
Lemma get_kwargs_loop_entries items element ns name_spaces strict :
  forall kwargs m,
    get_kwargs_loop items element ns name_spaces strict kwargs = Ok m ->
    (forall key v, kwargs !! key = Some v -> exists r, v = VDict r) ->
    (forall key v, m !! key = Some v -> exists r, v = VDict r) /\
    (forall item, In item items -> is_Some (m !! attr_name item)) /\
    (forall key, is_Some (kwargs !! key) -> is_Some (m !! key)).
Proof.
  induction items as [|x xs IH]; intros kwargs m H Hk; simpl in H.
  - injection H as <-. split; [done|]. split; [intros ? []|done].
  - apply bind_Ok in H as (r & _ & H).
    destruct (IH _ _ H) as (H1 & H2 & H3).
    + intros key v. rewrite lookup_insert. case_decide; [|apply Hk].
      intros [= <-]. eauto.
    + split; [done|]. split.
      * intros item [<-|Hin]; [|by apply H2].
        apply H3. rewrite lookup_insert_eq. eauto.
      * intros key Hkey. apply H3.
        rewrite lookup_insert. case_decide; eauto.
Qed.

Lemma get_kwargs_entries w cls element ns name_spaces strict m :
  wf w ->
  (get_kwargs w cls element ns name_spaces strict).1 = Ok m ->
  forall item, In item (resolve w cls) ->
    exists r, m !! attr_name item = Some (VDict r).
Proof.
  intros Hwf H item Hin.
  destruct (get_kwargs_spec w cls element ns name_spaces strict Hwf) as [E _].
  rewrite E in H.
  destruct (get_kwargs_loop_entries _ _ _ _ _ _ _ H) as (Hd & Hin' & _).
  { intros key v. rewrite lookup_empty. discriminate. }
  destruct (Hin' item Hin) as [v Hv].
  destruct (Hd _ _ Hv) as [r ->]. eauto.
Qed.

(** C1. What [get_kwargs] does where the claim fails: for a class with one
    text descriptor [name], the mapping returned for a node with the child
    holds under [name] the mapping that the decode function returned, not
    the decoded text, and for a node without the child it holds an entry
    with the empty mapping, not no entry. *)
Theorem get_kwargs_stores_whole_decode_results :
  let w := registered [(examples.Base, examples.text_item "name" "name")] in
  (get_kwargs w examples.Base
     (mkElement "Base" None [mkElement "name" (Some "x") []]) "" None false).1 =
    Ok {[ "name" := VDict {[ "name" := VStr "x" ]} ]} /\
  (get_kwargs w examples.Base (mkElement "Base" None []) "" None false).1 =
    Ok {[ "name" := VDict ∅ ]}.
Proof.
  intros w.
  assert (wf w) as Hwf by apply registered_spec.
  split.
  - destruct (get_kwargs_spec w examples.Base
                (mkElement "Base" None [mkElement "name" (Some "x") []]) ""
                None false Hwf) as [-> _].
    unfold w. rewrite resolve_registered. vm_compute. reflexivity.
  - destruct (get_kwargs_spec w examples.Base (mkElement "Base" None []) ""
                None false Hwf) as [-> _].
    unfold w. rewrite resolve_registered. vm_compute. reflexivity.
Qed.

(** C5. When a class registers a descriptor for an attribute name that an
    ancestor registered too, the entry under that name in the mapping that
    [get_kwargs] returns is what the decode function of the descriptor of
    the class returned, whatever the descriptors of the ancestors gave: the
    descriptors of the class come last in the resolved sequence, and the
    assignment of a later descriptor replaces that of an earlier one. The
    entry holds the result as the decode function returned it. *)
Theorem get_kwargs_subtype_descriptor_overrides (w : world) (cls : pytype)
    (element : Element) (ns : string) (name_spaces : option name_spaces_dict)
    (strict : bool) (bases : list positive) (top : positive)
    (before after : list RegistryItem) (item : RegistryItem) :
  wf w ->
  __mro__ cls = class_id cls :: bases ++ [top] ->
  direct w (class_id cls) = before ++ item :: after ->
  (forall later, In later after -> attr_name later <> attr_name item) ->
  (forall i, In i (resolve w cls) ->
     exists r, get_kwarg i element ns name_spaces (node_name i) (attr_name i)
                 (classes i) strict = Ok r) ->
  exists m r,
    (get_kwargs w cls element ns name_spaces strict).1 = Ok m /\
    get_kwarg item element ns name_spaces (node_name item) (attr_name item)
      (classes item) strict = Ok r /\
    m !! attr_name item = Some (VDict r).
Proof.
  intros Hwf Hmro Hdirect Hlater Hok.
  destruct (get_kwargs_spec w cls element ns name_spaces strict Hwf) as [-> _].
  destruct (get_kwargs_loop_ok_prefix _ element ns name_spaces strict Hok ∅)
    as [m Hm].
  exists m.
  rewrite (resolve_mro _ _ _ _ Hmro), Hdirect, app_assoc in Hm.
  destruct (get_kwargs_loop_last_wins _ _ _ _ _ _ _ _ Hlater Hm) as (r & Hr & Hl).
  exists r. split; [|done].
  by rewrite (resolve_mro _ _ _ _ Hmro), Hdirect, app_assoc.
Qed.

Lemma get_kwargs_subtype_descriptor_overrides_witness :
  exists m,
    (get_kwargs (registered examples.calls) examples.Sub examples.node "" None false).1
      = Ok m /\
    m !! "name" = Some (VDict {[ "name" := VStr "from sub" ]}).
Proof.
  assert (wf (registered examples.calls)) as Hwf by apply registered_spec.
  destruct (get_kwargs_subtype_descriptor_overrides (registered examples.calls)
              examples.Sub examples.node "" None false
              [class_id examples.Base] (class_id object)
              [examples.text_item "title" "title"] []
              (examples.text_item "name" "label") Hwf eq_refl)
    as (m & r & Hm & Hr & Hl).
  - rewrite (proj2 (registered_spec examples.calls)). reflexivity.
  - intros later [].
  - rewrite resolve_registered.
    intros i [<-|[<-|[<-|[]]]]; eexists; vm_compute; reflexivity.
  - exists m. split; [exact Hm|].
    vm_compute in Hr. injection Hr as <-. exact Hl.
Defined.

(** ** [Link] *)

Section LinkFacts.

Import pycall.

Variable base_get_kwargs :
  string -> option name_spaces_dict -> Element -> bool -> result kwargs_dict.
Variables RefreshMode ViewRefreshMode : EnumClass.

(** A call of [subelement_text_kwarg] with the keywords that [links.py]
    gives binds every parameter. *)
Lemma call_subelement_text_kwarg element ns node_name kwarg strict :
  call subelement_text_kwarg []
    [("element", AElement element); ("ns", AStr ns);
     ("node_name", AStr node_name); ("kwarg", AStr kwarg);
     ("strict", ABool strict)] =
  helpers.subelement_text_kwarg element ns None (Some node_name) kwarg strict.
Proof. reflexivity. Qed.

Lemma subelement_text_kwarg_returns element ns name_spaces node_name kwarg strict :
  exists d,
    helpers.subelement_text_kwarg element ns name_spaces node_name kwarg strict = Ok d.
Proof.
  unfold helpers.subelement_text_kwarg.
  destruct (find element _) as [node|]; [|eauto].
  destruct (helpers.stripped_text node); eauto.
Qed.

(** [subelement_enum_kwarg] has no parameter [classes]: the call of
    [links.py] raises before the body runs, whatever the arguments are. *)
Lemma call_subelement_enum_kwarg_classes element ns name_spaces node_name kwarg
    enum_class strict :
  call subelement_enum_kwarg []
    [("element", AElement element); ("ns", AStr ns);
     ("name_spaces", of_opt_name_spaces name_spaces);
     ("node_name", AStr node_name); ("kwarg", AStr kwarg);
     ("classes", ATuple [AEnumClass enum_class]);
     ("strict", ABool strict)] = Raise TypeError.
Proof. reflexivity. Qed.

(** C2. What [Link._get_kwargs] does where the claim fails, which is
    everywhere: when the call of the base class returns, the first call of
    [subelement_enum_kwarg] raises [TypeError], so no node decodes to the
    keyword arguments of a [Link], in strict and in lenient mode. *)
Theorem Link_get_kwargs_raises (ns : string)
    (name_spaces : option name_spaces_dict) (element : Element) (strict : bool) :
  links._get_kwargs base_get_kwargs RefreshMode ViewRefreshMode
    ns name_spaces element strict =
  match base_get_kwargs ns name_spaces element strict with
  | Ok _ => Raise TypeError
  | Raise e => Raise e
  end.
Proof.
  unfold links._get_kwargs.
  destruct (base_get_kwargs ns name_spaces element strict) as [kwargs|e];
    simpl; [|done].
  rewrite !call_subelement_text_kwarg.
  destruct (subelement_text_kwarg_returns element ns None (Some "href") "href" strict)
    as [d1 ->].
  destruct (subelement_text_kwarg_returns element ns None (Some "viewFormat")
              "view_format" strict) as [d2 ->].
  destruct (subelement_text_kwarg_returns element ns None (Some "httpQuery")
              "http_query" strict) as [d3 ->].
  simpl. by rewrite call_subelement_enum_kwarg_classes.
Qed.

End LinkFacts.

Example Link_encodes_then_fails_to_decode :
  let base_etree_element :=
    fun (self : XMLObject) (_ : option Z) (_ : option Verbosity) =>
      Ok (mkElement (obj_ns self ++ "Link") None []) in
  let base_get_kwargs :=
    fun (_ : string) (_ : option name_spaces_dict) (_ : Element) (_ : bool) =>
      Ok (∅ : kwargs_dict) in
  let modes := mkEnum "RefreshMode" ["onChange"; "onInterval"; "onExpire"] in
  let link :=
    mkObject (links.Link 8 [7; 1]%positive) "{kml}"
      (links.Link_attrs (VStr "http://example.com/a.kml") VNone VNone VNone
         VNone VNone VNone VNone) true in
  let element :=
    mkElement "{kml}Link" None
      [mkElement "{kml}href" (Some "http://example.com/a.kml") []] in
  links.etree_element (fun _ => "") base_etree_element link None (Some normal)
    = Ok element /\
  links._get_kwargs base_get_kwargs modes modes "{kml}" None element true
    = Raise TypeError /\
  links._get_kwargs base_get_kwargs modes modes "{kml}" None element false
    = Raise TypeError.
Proof. intros. split; [|split]; vm_compute; reflexivity. Qed.

(** ** The decoders of [helpers.py] *)

Lemma strip_empty : Py.strip "" = ""%string.
Proof. reflexivity. Qed.

Lemma stripped_text_present node t :
  text node = Some t -> Py.strip t <> ""%string ->
  helpers.stripped_text node = Some (Py.strip t).
Proof.
  intros Ht Hs. unfold helpers.stripped_text. rewrite Ht.
  destruct t as [|c t]; [by rewrite strip_empty in Hs|].
  destruct (Py.strip (String c t)); [done|reflexivity].
Qed.


(** C6. A child with text that is not white space and does not parse: the
    integer and the float decoder raise [ValueError] in strict mode and
    return the empty mapping in lenient mode; the enumeration decoder looks
    the text up in the same way in both modes and raises [ValueError] for a
    text that is no member's value. *)
Theorem malformed_text_raises_or_is_omitted (element : Element) (ns : string)
    (name_spaces : option name_spaces_dict) (node_name : option string)
    (kwarg : string) (node : Element) (t : string) :
  find element (ns ++ Py.fstr node_name)%string = Some node ->
  text node = Some t ->
  Py.strip t <> ""%string ->
  (Py.int_of_str (Py.strip t) = None ->
     helpers.subelement_int_kwarg element ns name_spaces node_name kwarg true
       = Raise ValueError /\
     helpers.subelement_int_kwarg element ns name_spaces node_name kwarg false
       = Ok ∅) /\
  (Py.float_of_str (Py.strip t) = None ->
     helpers.subelement_float_kwarg element ns name_spaces node_name kwarg true
       = Raise ValueError /\
     helpers.subelement_float_kwarg element ns name_spaces node_name kwarg false
       = Ok ∅) /\
  (forall enum_class strict,
     existsb (String.eqb (Py.strip t)) (enum_values enum_class) = false ->
     helpers.subelement_enum_kwarg element ns name_spaces node_name kwarg
       enum_class strict = Raise ValueError).
Proof.
  intros Hfind Ht Hs.
  pose proof (stripped_text_present node t Ht Hs) as Hst.
  unfold helpers.subelement_int_kwarg, helpers.subelement_float_kwarg,
    helpers.subelement_enum_kwarg, enum_call.
  rewrite Hfind, Hst.
  split; [|split].
  - by intros ->.
  - by intros ->.
  - by intros enum_class strict ->.
Qed.

Lemma malformed_text_raises_or_is_omitted_witness :
  let element := mkElement "Link" None [mkElement "refresh" (Some " often ") []] in
  let modes := mkEnum "RefreshMode" ["onChange"; "onInterval"; "onExpire"] in
  (helpers.subelement_int_kwarg element "" None (Some "refresh") "refresh" true
     = Raise ValueError /\
   helpers.subelement_int_kwarg element "" None (Some "refresh") "refresh" false
     = Ok ∅) /\
  (helpers.subelement_float_kwarg element "" None (Some "refresh") "refresh" true
     = Raise ValueError /\
   helpers.subelement_float_kwarg element "" None (Some "refresh") "refresh" false
     = Ok ∅) /\
  helpers.subelement_enum_kwarg element "" None (Some "refresh") "refresh" modes true
    = Raise ValueError /\
  helpers.subelement_enum_kwarg element "" None (Some "refresh") "refresh" modes false
    = Raise ValueError.
Proof.
  intros element modes.
  destruct (malformed_text_raises_or_is_omitted element "" None (Some "refresh")
              "refresh" (mkElement "refresh" (Some " often ") []) " often ")
    as (Hint & Hfloat & Henum).
  - reflexivity.
  - reflexivity.
  - vm_compute. discriminate.
  - split; [apply Hint; vm_compute; reflexivity|].
    split; [apply Hfloat; vm_compute; reflexivity|].
    split; apply Henum; vm_compute; reflexivity.
Defined.

(** The scenarios of the boolean decoder that hold: lenient ["TRUE"] is
    true, ["0"] is false, ["2.0"] is true, ["maybe"] gives no entry, and
    strict ["maybe"] raises. *)
Example bool_decode_scenarios :
  let node txt := mkElement "Placemark" None [mkElement "visibility" (Some txt) []] in
  let decode txt strict :=
    helpers.subelement_bool_kwarg (node txt) "" None (Some "visibility")
      "visibility" strict in
  decode "TRUE" false = Ok {[ "visibility" := VBool true ]} /\
  decode "0" false = Ok {[ "visibility" := VBool false ]} /\
  decode "2.0" false = Ok {[ "visibility" := VBool true ]} /\
  decode "maybe" false = Ok ∅ /\
  decode "nan" false = Ok ∅ /\
  decode "maybe" true = Raise ValueError /\
  decode "1" true = Ok {[ "visibility" := VBool true ]} /\
  decode "0" true = Ok {[ "visibility" := VBool false ]}.
Proof. intros. repeat split; vm_compute; reflexivity. Qed.

(** C7. What the boolean decoder does where the claim fails: the lenient
    decoding of the text ["inf"] takes the float branch, [float] succeeds,
    [int] raises [OverflowError], which [except ValueError] does not catch:
    the decoder raises and does not omit the attribute. *)
Theorem lenient_bool_decode_of_inf_raises (element : Element) (ns : string)
    (name_spaces : option name_spaces_dict) (node_name : option string)
    (kwarg : string) (node : Element) :
  find element (ns ++ Py.fstr node_name)%string = Some node ->
  text node = Some "inf"%string ->
  helpers.subelement_bool_kwarg element ns name_spaces node_name kwarg false
    = Raise OverflowError.
Proof.
  intros Hfind Ht. unfold helpers.subelement_bool_kwarg.
  rewrite Hfind, (stripped_text_present node "inf" Ht) by (vm_compute; discriminate).
  reflexivity.
Qed.

Lemma lenient_bool_decode_of_inf_raises_witness :
  helpers.subelement_bool_kwarg
    (mkElement "Placemark" None [mkElement "visibility" (Some "inf") []])
    "" None (Some "visibility") "visibility" false = Raise OverflowError.
Proof.
  apply (lenient_bool_decode_of_inf_raises _ "" None (Some "visibility")
           "visibility" (mkElement "visibility" (Some "inf") []));
    reflexivity.
Defined.

Lemma collect_classes_cons element ns name_spaces strict c cs args_list :
  helpers.collect_classes element ns name_spaces (c :: cs) strict args_list =
  let* objs := decode_group element ns name_spaces strict c in
  helpers.collect_classes element ns name_spaces cs strict (args_list ++ objs).
Proof.
  unfold decode_group. cbn [helpers.collect_classes].
  destruct (findall element (ns ++ get_tag_name c)%string) as [|s ss].
  - simpl. by rewrite app_nil_r.
  - reflexivity.
Qed.

Lemma collect_classes_groups element ns name_spaces strict obj_classes :
  forall args_list,
    helpers.collect_classes element ns name_spaces obj_classes strict args_list =
    let* groups := mapM (decode_group element ns name_spaces strict) obj_classes in
    Ok (args_list ++ concat groups).
Proof.
  induction obj_classes as [|c cs IH]; intros args_list.
  - simpl. by rewrite app_nil_r.
  - rewrite collect_classes_cons. cbn [mapM].
    destruct (decode_group element ns name_spaces strict c) as [objs|e];
      simpl; [|done].
    rewrite IH. destruct (mapM _ cs); simpl; [|done].
    by rewrite app_assoc.
Qed.

(** C9. The list decoder takes the candidate classes in the order given.
    For each class it decodes the children of the element whose tag is the
    tag of the class, every one of them and in the order in which the
    element holds them, and it returns the groups one after the other: the
    result is grouped by candidate class, not ordered by position in the
    document. It raises what the first failing nested decode raises. *)
Theorem list_decoder_groups_by_candidate_class (element : Element) (ns : string)
    (name_spaces : option name_spaces_dict) (kwarg : string)
    (obj_classes : list XMLClass) (strict : bool) :
  helpers.xml_subelement_list_kwarg element ns name_spaces kwarg obj_classes strict =
  let* groups :=
    mapM (fun obj_class =>
            mapM (decode_child obj_class ns name_spaces strict)
              (List.filter
                 (fun child => String.eqb (tag child) (ns ++ get_tag_name obj_class))
                 (children element)))
         obj_classes in
  Ok {[ kwarg := VList (concat groups) ]}.
Proof.
  unfold helpers.xml_subelement_list_kwarg.
  rewrite collect_classes_groups.
  by destruct (mapM _ obj_classes).
Qed.

(** Three [TypeA] children and two [TypeB] children, interleaved. *)
Lemma list_decoder_groups_by_candidate_class_witness :
  let A := mkType 10 "TypeA" [10; 1]%positive in
  let B := mkType 11 "TypeB" [11; 1]%positive in
  let from_element cls :=
    fun (ns : string) (_ : option name_spaces_dict) (e : Element) (_ : bool) =>
      Ok (mkObject cls ns {[ "name" := VStr (default "" (text e)) ]} true) in
  let TypeA := mkClass A "TypeA" (from_element A) in
  let TypeB := mkClass B "TypeB" (from_element B) in
  let obj cls name := VObj (mkObject cls "" {[ "name" := VStr name ]} true) in
  helpers.xml_subelement_list_kwarg
    (mkElement "Folder" None
       [mkElement "TypeA" (Some "a1") []; mkElement "TypeB" (Some "b1") [];
        mkElement "TypeA" (Some "a2") []; mkElement "TypeB" (Some "b2") [];
        mkElement "TypeA" (Some "a3") []])
    "" None "features" [TypeA; TypeB] false =
  Ok {[ "features" :=
          VList [obj A "a1"; obj A "a2"; obj A "a3"; obj B "b1"; obj B "b2"] ]}.
Proof.
  intros A B from_element TypeA TypeB obj.
  rewrite list_decoder_groups_by_candidate_class.
  vm_compute. reflexivity.
Defined.

(** ** Absence *)

Section Absence.

Variable repr_other : pyval -> string.
Variable etree_element : XMLObject -> option Z -> option Verbosity -> result Element.


End Absence.



(** * Further properties *)

(** ** Text *)

Lemma chars_rev_app s t :
  list_ascii_of_string (String.rev_app s t) =
  rev_append (list_ascii_of_string s) (list_ascii_of_string t).
Proof.
  revert t. induction s as [|c s IH]; intros t; simpl; [done|].
  by rewrite IH.
Qed.

Lemma chars_rev s :
  list_ascii_of_string (String.rev s) = rev (list_ascii_of_string s).
Proof. unfold String.rev. by rewrite chars_rev_app, rev_append_rev, app_nil_r. Qed.

Lemma chars_lstrip s :
  list_ascii_of_string (Py.lstrip s) = lstrip_chars (list_ascii_of_string s).
Proof.
  induction s as [|c s IH]; simpl; [done|].
  destruct (Py.isspace c); [exact IH|done].
Qed.

Lemma chars_strip s :
  list_ascii_of_string (Py.strip s) =
  rev (lstrip_chars (rev (lstrip_chars (list_ascii_of_string s)))).
Proof.
  unfold Py.strip, Py.rstrip.
  by rewrite chars_rev, chars_lstrip, chars_rev, chars_lstrip.
Qed.

Lemma chars_inj s t :
  list_ascii_of_string s = list_ascii_of_string t -> s = t.
Proof.
  intros H. rewrite <- (string_of_list_ascii_of_string s),
    <- (string_of_list_ascii_of_string t). by rewrite H.
Qed.

Lemma lstrip_chars_head l :
  match l with
  | c :: _ => Py.isspace c = false
  | [] => True
  end ->
  lstrip_chars l = l.
Proof. destruct l as [|c l]; simpl; [done|]. by intros ->. Qed.

Lemma lstrip_chars_snoc l c :
  Py.isspace c = false -> lstrip_chars (l ++ [c]) = lstrip_chars l ++ [c].
Proof.
  intros Hc. induction l as [|a l IH]; simpl.
  - by rewrite Hc.
  - destruct (Py.isspace a); [exact IH|done].
Qed.

Lemma lstrip_chars_result l :
  match lstrip_chars l with
  | c :: _ => Py.isspace c = false
  | [] => True
  end.
Proof.
  induction l as [|a l IH]; simpl; [done|].
  destruct (Py.isspace a) eqn:E; [exact IH|exact E].
Qed.

(** The stripped characters of a list that starts with a character that is
    no white space start with it too. *)
Lemma strip_chars_cons c l :
  Py.isspace c = false ->
  rev (lstrip_chars (rev (c :: l))) = c :: rev (lstrip_chars (rev l)).
Proof.
  intros Hc. simpl. rewrite lstrip_chars_snoc by done.
  by rewrite rev_app_distr.
Qed.

(** [strip] leaves a stripped text as it is. *)
Lemma strip_idempotent s : Py.strip (Py.strip s) = Py.strip s.
Proof.
  apply chars_inj. rewrite !chars_strip.
  set (m := lstrip_chars (list_ascii_of_string s)).
  pose proof (lstrip_chars_result (list_ascii_of_string s)) as Hm. fold m in Hm.
  destruct m as [|c m']; [done|].
  rewrite (strip_chars_cons c m' Hm).
  rewrite (lstrip_chars_head (c :: _)) by done.
  rewrite (strip_chars_cons c _ Hm). f_equal.
  rewrite rev_involutive.
  rewrite (lstrip_chars_head (lstrip_chars (rev m'))) by apply lstrip_chars_result.
  done.
Qed.

(** [strip] leaves a text without white space as it is. *)
Lemma strip_no_space s : no_space s -> Py.strip s = s.
Proof.
  unfold no_space. intros H. apply chars_inj. rewrite chars_strip.
  set (l := list_ascii_of_string s) in *.
  rewrite (lstrip_chars_head l) by (by destruct H).
  rewrite (lstrip_chars_head (rev l)).
  - apply rev_involutive.
  - assert (Forall (fun c => Py.isspace c = false) (rev l)) as Hr
      by (by apply List.Forall_rev).
    by destruct Hr.
Qed.

(** ** Decimal text of integers *)

Lemma span_digit_step c k s :
  Py.digit_of c = Some k ->
  match s with
  | String "_"%char _ => False
  | _ => True
  end ->
  Py.span_digitpart (String c s) =
  let '(ds, r) := Py.span_digitpart s in (k :: ds, r).
Proof.
  intros Hc Hs. cbn [Py.span_digitpart]. rewrite Hc.
  destruct s as [|a s']; [done|].
  destruct (Ascii.eqb_spec a "_"%char) as [->|Hne]; [done|].
  destruct a as [[] [] [] [] [] [] [] []]; try reflexivity.
  by destruct Hne.
Qed.

Lemma uint_string_head d :
  match NilEmpty.string_of_uint d with
  | String "_"%char _ => False
  | _ => True
  end.
Proof. by destruct d. Qed.

Lemma span_digitpart_uint d :
  Py.span_digitpart (NilEmpty.string_of_uint d) = (uint_digits d, EmptyString).
Proof.
  induction d as [|d IH|d IH|d IH|d IH|d IH|d IH|d IH|d IH|d IH|d IH];
    [reflexivity|..];
    cbn [NilEmpty.string_of_uint uint_digits];
    (erewrite span_digit_step; [rewrite IH; reflexivity|reflexivity|apply uint_string_head]).
Qed.

Lemma digits_value_revapp d :
  forall d',
    fold_left (fun acc k => 10 * acc + k) (uint_digits d)
      (Z.of_N (DecimalPos.Unsigned.of_lu d')) =
    Z.of_N (DecimalPos.Unsigned.of_lu (Decimal.revapp d d')).
Proof.
  induction d as [|d IH|d IH|d IH|d IH|d IH|d IH|d IH|d IH|d IH|d IH];
    intros d'; [reflexivity|..];
    cbn [uint_digits fold_left Decimal.revapp]; rewrite <- IH; f_equal;
    cbn [DecimalPos.Unsigned.of_lu]; lia.
Qed.

Lemma digits_value_uint d :
  Py.digits_value (uint_digits d) = Z.of_N (Pos.of_uint d).
Proof.
  unfold Py.digits_value. rewrite DecimalPos.Unsigned.of_uint_alt.
  apply (digits_value_revapp d Decimal.Nil).
Qed.

Lemma uint_string_no_space d : no_space (NilEmpty.string_of_uint d).
Proof.
  unfold no_space.
  induction d; cbn [NilEmpty.string_of_uint list_ascii_of_string];
    constructor; done.
Qed.

Lemma signed_digitpart_uint d :
  d <> Decimal.Nil ->
  Py.signed_digitpart (NilEmpty.string_of_uint d) = Some (Z.of_N (Pos.of_uint d)).
Proof.
  intros Hd. unfold Py.signed_digitpart.
  assert (Py.split_sign (NilEmpty.string_of_uint d) = (false, NilEmpty.string_of_uint d))
    as -> by (by destruct d).
  rewrite span_digitpart_uint.
  pose proof (digits_value_uint d) as Hv.
  destruct (uint_digits d) as [|k ks] eqn:E; [by destruct d|].
  by rewrite Hv.
Qed.

(** The text that [str] gives for an integer has no white space, and [int]
    reads the integer back from it. *)
Lemma str_of_int_no_space n : no_space (Py.str_of_int n).
Proof.
  unfold Py.str_of_int, NilZero.string_of_int, NilZero.string_of_uint.
  destruct (Z.to_int n) as [d|d].
  - destruct d; try apply (uint_string_no_space (Decimal.D0 Decimal.Nil));
      apply uint_string_no_space.
  - constructor; [done|].
    destruct d; try apply (uint_string_no_space (Decimal.D0 Decimal.Nil));
      apply uint_string_no_space.
Qed.

Lemma str_of_int_nonempty n : Py.str_of_int n <> EmptyString.
Proof.
  unfold Py.str_of_int, NilZero.string_of_int, NilZero.string_of_uint.
  destruct (Z.to_int n) as [d|d]; [|done]. by destruct d.
Qed.

Lemma int_of_str_of_int n : Py.int_of_str (Py.str_of_int n) = Some n.
Proof.
  unfold Py.int_of_str. rewrite (strip_no_space _ (str_of_int_no_space n)).
  unfold Py.str_of_int. destruct n as [|p|p]; [reflexivity| |].
  - cbn [Z.to_int NilZero.string_of_int]. unfold NilZero.string_of_uint.
    pose proof (DecimalPos.Unsigned.to_uint_nonnil p) as Hp.
    destruct (Pos.to_uint p) eqn:E; [done|..];
      rewrite <- E; rewrite signed_digitpart_uint by (by rewrite E);
      by rewrite DecimalPos.Unsigned.of_to.
  - cbn [Z.to_int NilZero.string_of_int]. unfold NilZero.string_of_uint.
    pose proof (DecimalPos.Unsigned.to_uint_nonnil p) as Hp.
    assert (match Pos.to_uint p with Decimal.Nil => "0"%string | _ => NilEmpty.string_of_uint (Pos.to_uint p) end
            = NilEmpty.string_of_uint (Pos.to_uint p)) as -> by (by destruct (Pos.to_uint p)).
    unfold Py.signed_digitpart. cbn [Py.split_sign].
    rewrite span_digitpart_uint.
    pose proof (digits_value_uint (Pos.to_uint p)) as Hv.
    destruct (uint_digits (Pos.to_uint p)) as [|k ks] eqn:E.
    { by destruct (Pos.to_uint p). }
    rewrite Hv, DecimalPos.Unsigned.of_to. reflexivity.
Qed.

(** ** The element tree *)

Lemma find_extend_new element cs name :
  find element name = None ->
  find (extend element cs) name =
  List.find (fun c => String.eqb (tag c) name) cs.
Proof.
  unfold find, extend. simpl. intros H.
  induction (children element) as [|c l IH]; simpl in *; [done|].
  destruct (String.eqb (tag c) name); [done|auto].
Qed.

Lemma find_extend_old element cs name child :
  find element name = Some child -> find (extend element cs) name = Some child.
Proof.
  unfold find, extend. simpl.
  induction (children element) as [|c l IH]; simpl; [done|].
  destruct (String.eqb (tag c) name); auto.
Qed.

Lemma find_extend_other element cs name :
  (forall c, In c cs -> tag c <> name) ->
  find (extend element cs) name = find element name.
Proof.
  intros Hcs.
  assert (List.find (fun c => String.eqb (tag c) name) cs = None) as Hnone.
  { induction cs as [|c cs IH]; simpl; [done|].
    destruct (String.eqb_spec (tag c) name) as [E|_].
    - by destruct (Hcs c (or_introl eq_refl)).
    - apply IH. intros c' Hc'. apply Hcs. by right. }
  destruct (find element name) as [child|] eqn:E.
  - by apply find_extend_old.
  - by rewrite find_extend_new.
Qed.

Lemma find_SubElement element name txt :
  find element name = None ->
  find (SubElement element name txt) name = Some (mkElement name (Some txt) []).
Proof.
  intros H. unfold SubElement, append. rewrite find_extend_new by done.
  simpl. by rewrite String.eqb_refl.
Qed.

Lemma findall_extend element cs name :
  findall (extend element cs) name =
  findall element name ++ List.filter (fun c => String.eqb (tag c) name) cs.
Proof. unfold findall, extend. simpl. apply List.filter_app. Qed.

(** ** What the decoders read *)

(** The decoders of the primitive kinds and of a nested object read the
    element through [find] for their one name only. *)
Lemma decoders_read_first_child element element' ns name_spaces node_name kwarg
    strict :
  find element (ns ++ Py.fstr node_name)%string =
  find element' (ns ++ Py.fstr node_name)%string ->
  helpers.subelement_text_kwarg element ns name_spaces node_name kwarg strict =
    helpers.subelement_text_kwarg element' ns name_spaces node_name kwarg strict /\
  helpers.subelement_bool_kwarg element ns name_spaces node_name kwarg strict =
    helpers.subelement_bool_kwarg element' ns name_spaces node_name kwarg strict /\
  helpers.subelement_int_kwarg element ns name_spaces node_name kwarg strict =
    helpers.subelement_int_kwarg element' ns name_spaces node_name kwarg strict /\
  helpers.subelement_float_kwarg element ns name_spaces node_name kwarg strict =
    helpers.subelement_float_kwarg element' ns name_spaces node_name kwarg strict /\
  forall enum_class,
    helpers.subelement_enum_kwarg element ns name_spaces node_name kwarg
      enum_class strict =
    helpers.subelement_enum_kwarg element' ns name_spaces node_name kwarg
      enum_class strict.
Proof.
  intros H. unfold helpers.subelement_text_kwarg, helpers.subelement_bool_kwarg,
    helpers.subelement_int_kwarg, helpers.subelement_float_kwarg,
    helpers.subelement_enum_kwarg. by rewrite H.
Qed.

Lemma find_first element name pre child post :
  children element = pre ++ child :: post ->
  (forall c, In c pre -> tag c <> name) ->
  tag child = name ->
  find element name = Some child.
Proof.
  intros Hc Hpre Htag. unfold find. rewrite Hc. clear Hc.
  induction pre as [|c pre IH]; simpl.
  - by rewrite Htag, String.eqb_refl.
  - destruct (String.eqb_spec (tag c) name) as [E|_].
    + by destruct (Hpre c (or_introl eq_refl)).
    + apply IH. intros c' Hc'. apply Hpre. by right.
Qed.

(** ** More on the registry *)

Lemma get_items w cls :
  wf w -> list_items (get w cls).2 (get w cls).1 = resolve w cls.
Proof. intros Hwf. apply (get_spec w cls Hwf). Qed.

Lemma resolve_register w c item cls :
  wf w ->
  resolve (register w c item) cls =
  concat (map (fun p => if Pos.eqb p (class_id c)
                        then direct w p ++ [item] else direct w p)
              (parents cls)).
Proof.
  intros Hwf. unfold resolve. f_equal. apply map_ext.
  apply (register_spec w c item Hwf).
Qed.

(** X1. Registering an item on a class that is not among the ancestors that
    [get] visits for [cls] (the last entry of the linearisation, [object],
    is not among them) leaves what [get] returns for [cls] as it was. *)
Theorem register_elsewhere_leaves_get (w : world) (c : pytype)
    (item : RegistryItem) (cls : pytype) :
  wf w ->
  ~ In (class_id c) (rev (removelast (__mro__ cls))) ->
  list_items (get (register w c item) cls).2 (get (register w c item) cls).1 =
  list_items (get w cls).2 (get w cls).1.
Proof.
  intros Hwf Hnot.
  rewrite !get_items by (done || apply (register_spec w c item Hwf)).
  rewrite resolve_register by done. unfold resolve. f_equal.
  apply map_ext_in. intros p Hp.
  destruct (Pos.eqb_spec p (class_id c)) as [->|_]; [|done].
  by destruct Hnot.
Qed.

Lemma register_elsewhere_leaves_get_witness :
  let w := registered examples.calls in
  list_items (get (register w object (examples.text_item "id" "id")) examples.Sub).2
    (get (register w object (examples.text_item "id" "id")) examples.Sub).1 =
  list_items (get w examples.Sub).2 (get w examples.Sub).1.
Proof.
  intros w.
  apply (register_elsewhere_leaves_get w object (examples.text_item "id" "id")
           examples.Sub).
  - apply registered_spec.
  - vm_compute. intros [H|[H|[]]]; discriminate.
Defined.

(** X2. [register(cls, item)] followed by [get(cls)] returns what [get(cls)]
    returned before, with [item] added at the end. *)
Theorem register_then_get_appends (w : world) (cls : pytype)
    (item : RegistryItem) (bases : list positive) (top : positive) :
  wf w ->
  __mro__ cls = class_id cls :: bases ++ [top] ->
  ~ In (class_id cls) bases ->
  list_items (get (register w cls item) cls).2 (get (register w cls item) cls).1 =
  list_items (get w cls).2 (get w cls).1 ++ [item].
Proof.
  intros Hwf Hmro Hnot.
  rewrite !get_items by (done || apply (register_spec w cls item Hwf)).
  rewrite resolve_register by done.
  rewrite (resolve_mro _ _ _ _ Hmro), (parents_mro _ _ _ Hmro).
  rewrite map_app, concat_app. simpl.
  rewrite Pos.eqb_refl, app_nil_r, app_assoc. f_equal. f_equal. f_equal.
  apply map_ext_in. intros p Hp.
  destruct (Pos.eqb_spec p (class_id cls)) as [->|_]; [|done].
  destruct Hnot. by apply in_rev.
Qed.

Lemma register_then_get_appends_witness :
  let w := registered examples.calls in
  let item := examples.text_item "description" "description" in
  list_items (get (register w examples.Sub item) examples.Sub).2
    (get (register w examples.Sub item) examples.Sub).1 =
  list_items (get w examples.Sub).2 (get w examples.Sub).1 ++ [item].
Proof.
  intros w item.
  apply (register_then_get_appends w examples.Sub item [class_id examples.Base]
           (class_id object)).
  - apply registered_spec.
  - reflexivity.
  - vm_compute. intros [H|[]]. discriminate.
Defined.

(** X3. Registrations on two different classes commute: [get] returns the
    same items whichever of the two [register] calls came first. *)
Theorem registrations_on_different_classes_commute (w : world)
    (c1 c2 : pytype) (i1 i2 : RegistryItem) (cls : pytype) :
  wf w ->
  class_id c1 <> class_id c2 ->
  list_items (get (register (register w c1 i1) c2 i2) cls).2
    (get (register (register w c1 i1) c2 i2) cls).1 =
  list_items (get (register (register w c2 i2) c1 i1) cls).2
    (get (register (register w c2 i2) c1 i1) cls).1.
Proof.
  intros Hwf Hne.
  destruct (register_spec w c1 i1 Hwf) as [Hwf1 Hd1].
  destruct (register_spec w c2 i2 Hwf) as [Hwf2 Hd2].
  destruct (register_spec _ c2 i2 Hwf1) as [Hwf12 Hd12].
  destruct (register_spec _ c1 i1 Hwf2) as [Hwf21 Hd21].
  rewrite !get_items by done. unfold resolve. f_equal. apply map_ext.
  intros p. rewrite Hd12, Hd21, Hd1, Hd2.
  destruct (Pos.eqb_spec p (class_id c1)) as [->|_];
    destruct (Pos.eqb_spec (class_id c1) (class_id c2)) as [E|_]; try done.
  all: destruct (Pos.eqb_spec p (class_id c2)); done.
Qed.

Lemma registrations_on_different_classes_commute_witness :
  let w := registered examples.calls in
  let a := examples.text_item "a" "a" in
  let b := examples.text_item "b" "b" in
  list_items (get (register (register w examples.Base a) examples.Sub b) examples.Sub).2
    (get (register (register w examples.Base a) examples.Sub b) examples.Sub).1 =
  list_items (get (register (register w examples.Sub b) examples.Base a) examples.Sub).2
    (get (register (register w examples.Sub b) examples.Base a) examples.Sub).1.
Proof.
  intros w a b.
  apply (registrations_on_different_classes_commute w examples.Base examples.Sub
           a b examples.Sub).
  - apply registered_spec.
  - discriminate.
Defined.

Lemma get_kwargs_loop_keys items element ns name_spaces strict :
  forall kwargs m,
    get_kwargs_loop items element ns name_spaces strict kwargs = Ok m ->
    forall key,
      is_Some (m !! key) <->
      is_Some (kwargs !! key) \/ exists item, In item items /\ attr_name item = key.
Proof.
  induction items as [|x xs IH]; intros kwargs m H key; simpl in H.
  - injection H as <-. split; [by left|]. intros [H|(i & [] & _)]. done.
  - apply bind_Ok in H as (r & _ & H). rewrite (IH _ _ H key).
    rewrite lookup_insert. split.
    + intros [Hk|(i & Hi & Ha)].
      * case_decide as E; [right; exists x; split; [by left|done]|by left].
      * right. exists i. split; [by right|done].
    + intros [Hk|(i & [<-|Hi] & Ha)].
      * left. case_decide; eauto.
      * left. rewrite Ha. case_decide; [eauto|done].
      * right. eauto.
Qed.

(** X4. When [get_kwargs] returns a mapping, its keys are the attribute
    names of the descriptors that [get] returns for the class, no more and
    no less. *)
Theorem get_kwargs_keys_are_attribute_names (w : world) (cls : pytype)
    (element : Element) (ns : string) (name_spaces : option name_spaces_dict)
    (strict : bool) (m : kwargs_dict) :
  wf w ->
  (get_kwargs w cls element ns name_spaces strict).1 = Ok m ->
  forall key,
    is_Some (m !! key) <->
    exists item,
      In item (list_items (get w cls).2 (get w cls).1) /\ attr_name item = key.
Proof.
  intros Hwf H key. rewrite get_items by done.
  destruct (get_kwargs_spec w cls element ns name_spaces strict Hwf) as [E _].
  rewrite E in H. rewrite (get_kwargs_loop_keys _ _ _ _ _ _ _ H key).
  rewrite lookup_empty. split; [|by right].
  intros [[x Hx]|Hi]; [discriminate|done].
Qed.

Lemma get_kwargs_keys_are_attribute_names_witness :
  exists m,
    (get_kwargs (registered examples.calls) examples.Sub examples.node "" None false).1
      = Ok m /\
    is_Some (m !! "title") /\ ~ is_Some (m !! "label").
Proof.
  assert (wf (registered examples.calls)) as Hwf by apply registered_spec.
  destruct (get_kwargs_spec (registered examples.calls) examples.Sub examples.node
              "" None false Hwf) as [E _].
  rewrite resolve_registered in E.
  eexists. split; [rewrite E; vm_compute; reflexivity|].
  pose proof (get_kwargs_keys_are_attribute_names (registered examples.calls)
                examples.Sub examples.node "" None false _ Hwf
                ltac:(rewrite E; vm_compute; reflexivity)) as Hkeys.
  split.
  - apply Hkeys. rewrite get_items, resolve_registered by done.
    exists (examples.text_item "title" "title"). split; [|done].
    vm_compute. by right; left.
  - intros Hl. apply Hkeys in Hl as (item & Hin & Ha).
    rewrite get_items, resolve_registered in Hin by done.
    vm_compute in Hin. destruct Hin as [<-|[<-|[<-|[]]]]; discriminate.
Defined.

(** X5. [get_kwargs] stops at the first descriptor whose decode function
    raises and raises the same exception: no mapping is returned, whatever
    the descriptors after it would give. *)
Theorem get_kwargs_raises_first_error (w : world) (cls : pytype)
    (element : Element) (ns : string) (name_spaces : option name_spaces_dict)
    (strict : bool) (before after : list RegistryItem) (item : RegistryItem)
    (e : exn) :
  wf w ->
  list_items (get w cls).2 (get w cls).1 = before ++ item :: after ->
  (forall i, In i before ->
     exists r, get_kwarg i element ns name_spaces (node_name i) (attr_name i)
                 (classes i) strict = Ok r) ->
  get_kwarg item element ns name_spaces (node_name item) (attr_name item)
    (classes item) strict = Raise e ->
  (get_kwargs w cls element ns name_spaces strict).1 = Raise e.
Proof.
  intros Hwf Hitems Hok Hraise.
  destruct (get_kwargs_spec w cls element ns name_spaces strict Hwf) as [-> _].
  rewrite <- get_items, Hitems, get_kwargs_loop_app by done.
  destruct (get_kwargs_loop_ok_prefix before element ns name_spaces strict Hok ∅)
    as [m ->].
  simpl. by rewrite Hraise.
Qed.

Lemma sub_element_loop_app xs ys obj precision verbosity :
  forall element,
    sub_element_loop (xs ++ ys) obj element precision verbosity =
    let* element' := sub_element_loop xs obj element precision verbosity in
    sub_element_loop ys obj element' precision verbosity.
Proof.
  induction xs as [|x xs IH]; intros element; simpl; [done|].
  destruct (set_element x _ _ _ _ _ _); simpl; [apply IH|done].
Qed.

Lemma sub_element_loop_ok_prefix before obj precision verbosity :
  (forall i element, In i before ->
     exists element', set_element i obj element (attr_name i) (node_name i)
                        precision verbosity = Ok element') ->
  forall element,
    exists element', sub_element_loop before obj element precision verbosity = Ok element'.
Proof.
  induction before as [|x xs IH]; intros Hok element; simpl; [eauto|].
  destruct (Hok x element (or_introl eq_refl)) as [e' ->]. simpl.
  apply IH. intros i el Hi. apply Hok. by right.
Qed.

(** X6. [sub_element] stops at the first descriptor whose encoder raises
    and raises the same exception; the encoders after it are not called. *)
Theorem sub_element_raises_first_error (w : world) (obj : XMLObject)
    (element : Element) (precision : option Z) (verbosity : option Verbosity)
    (before after : list RegistryItem) (item : RegistryItem) (e : exn) :
  wf w ->
  list_items (get w (obj_type obj)).2 (get w (obj_type obj)).1 =
    before ++ item :: after ->
  (forall i element', In i before ->
     exists element'', set_element i obj element' (attr_name i) (node_name i)
                         precision verbosity = Ok element'') ->
  (forall element', set_element item obj element' (attr_name item) (node_name item)
                      precision verbosity = Raise e) ->
  (sub_element w obj element precision verbosity).1 = Raise e.
Proof.
  intros Hwf Hitems Hok Hraise.
  destruct (sub_element_spec w obj element precision verbosity Hwf) as [-> _].
  rewrite <- get_items, Hitems, sub_element_loop_app by done.
  destruct (sub_element_loop_ok_prefix before obj precision verbosity Hok element)
    as [el' ->].
  simpl. by rewrite Hraise.
Qed.

(** X7. For a class none of whose visited ancestors was ever registered,
    [get] returns an empty list, [get_kwargs] the empty mapping, and
    [sub_element] leaves the element as it is. *)
Theorem unregistered_class_resolves_to_nothing (w : world) (obj : XMLObject)
    (element : Element) (ns : string) (name_spaces : option name_spaces_dict)
    (strict : bool) (precision : option Z) (verbosity : option Verbosity) :
  wf w ->
  (forall p, In p (rev (removelast (__mro__ (obj_type obj)))) ->
     _registry w !! p = None) ->
  list_items (get w (obj_type obj)).2 (get w (obj_type obj)).1 = [] /\
  (get_kwargs w (obj_type obj) element ns name_spaces strict).1 = Ok ∅ /\
  (sub_element w obj element precision verbosity).1 = Ok element.
Proof.
  intros Hwf Hnone.
  assert (resolve w (obj_type obj) = []) as Hres.
  { unfold resolve, parents.
    induction (rev (removelast (__mro__ (obj_type obj)))) as [|p ps IH]; [done|].
    simpl. unfold direct at 1. rewrite (Hnone p) by (by left). simpl.
    apply IH. intros q Hq. apply Hnone. by right. }
  destruct (get_kwargs_spec w (obj_type obj) element ns name_spaces strict Hwf) as [-> _].
  destruct (sub_element_spec w obj element precision verbosity Hwf) as [-> _].
  by rewrite get_items, Hres.
Qed.

Lemma get_kwargs_raises_first_error_witness :
  (get_kwargs (registered more_examples.calls) examples.Base more_examples.node
     "" None true).1 = Raise ValueError.
Proof.
  assert (wf (registered more_examples.calls)) as Hwf by apply registered_spec.
  apply (get_kwargs_raises_first_error (registered more_examples.calls)
           examples.Base more_examples.node "" None true
           [examples.text_item "name" "name"]
           [examples.text_item "description" "description"]
           (more_examples.bool_item "visibility" "visibility") ValueError Hwf).
  - rewrite get_items, resolve_registered by done. reflexivity.
  - intros i [<-|[]]. eexists. vm_compute. reflexivity.
  - vm_compute. reflexivity.
Defined.

Lemma sub_element_raises_first_error_witness :
  (sub_element (registered more_examples.calls) more_examples.obj
     (mkElement "Base" None []) None None).1 = Raise ValueError.
Proof.
  assert (wf (registered more_examples.calls)) as Hwf by apply registered_spec.
  apply (sub_element_raises_first_error (registered more_examples.calls)
           more_examples.obj (mkElement "Base" None []) None None
           [examples.text_item "name" "name"]
           [examples.text_item "description" "description"]
           (more_examples.bool_item "visibility" "visibility") ValueError Hwf).
  - rewrite get_items, resolve_registered by done. reflexivity.
  - intros i element' [<-|[]]. eexists. reflexivity.
  - intros element'. reflexivity.
Defined.

Lemma unregistered_class_resolves_to_nothing_witness :
  let w := registered examples.calls in
  list_items (get w more_examples.Other).2 (get w more_examples.Other).1 = [] /\
  (get_kwargs w more_examples.Other examples.node "" None true).1 = Ok ∅ /\
  (sub_element w more_examples.other_obj examples.node None None).1
    = Ok examples.node.
Proof.
  intros w.
  apply (unregistered_class_resolves_to_nothing w more_examples.other_obj
           examples.node "" None true None None).
  - apply registered_spec.
  - intros p [<-|[]]. vm_compute. reflexivity.
Defined.

(** ** Encoding and then decoding one attribute *)

Lemma stripped_text_of_node name txt :
  helpers.stripped_text (mkElement name (Some txt) []) =
  if Py.truthy_str txt && Py.truthy_str (Py.strip txt) then Some (Py.strip txt)
  else None.
Proof. reflexivity. Qed.

Lemma truthy_str_nonempty s : s <> EmptyString -> Py.truthy_str s = true.
Proof. by destruct s. Qed.

(** X8. A text attribute that is not empty is written as one child. When
    the element had no child of that name before, decoding it with the same
    name space and node name gives the text without the white space around
    it, or no entry when the text is white space only; a text without white
    space around it comes back as it was. *)
Theorem text_encode_then_decode (obj : XMLObject) (element : Element)
    (attr : string) (node_name : option string) (precision : option Z)
    (verbosity : option Verbosity) (name_spaces : option name_spaces_dict)
    (kwarg : string) (strict : bool) (s : string) :
  getattr obj attr = VStr s ->
  s <> EmptyString ->
  find element (obj_ns obj ++ Py.fstr node_name)%string = None ->
  (let* e := helpers.text_subelement obj element attr node_name precision verbosity in
   helpers.subelement_text_kwarg e (obj_ns obj) name_spaces node_name kwarg strict)
    = Ok (if Py.truthy_str (Py.strip s) then {[ kwarg := VStr (Py.strip s) ]} else ∅) /\
  (Py.strip s = s ->
   (let* e := helpers.text_subelement obj element attr node_name precision verbosity in
    helpers.subelement_text_kwarg e (obj_ns obj) name_spaces node_name kwarg strict)
     = Ok {[ kwarg := VStr s ]}).
Proof.
  intros Hattr Hs Hfind.
  assert ((let* e := helpers.text_subelement obj element attr node_name precision verbosity in
           helpers.subelement_text_kwarg e (obj_ns obj) name_spaces node_name kwarg strict)
          = Ok (if Py.truthy_str (Py.strip s) then {[ kwarg := VStr (Py.strip s) ]} else ∅))
    as E.
  { unfold helpers.text_subelement. rewrite Hattr. simpl.
    rewrite (truthy_str_nonempty s Hs). simpl.
    unfold helpers.subelement_text_kwarg.
    rewrite (find_SubElement _ _ _ Hfind), stripped_text_of_node.
    rewrite (truthy_str_nonempty s Hs). simpl.
    by destruct (Py.truthy_str (Py.strip s)). }
  split; [exact E|]. intros Hstrip. rewrite E, Hstrip.
  by rewrite (truthy_str_nonempty s Hs).
Qed.

Lemma text_encode_then_decode_witness :
  let obj := mkObject examples.Base "{kml}" {[ "name" := VStr " a b " ]} true in
  (let* e := helpers.text_subelement obj (mkElement "{kml}Base" None []) "name"
               (Some "name") None None in
   helpers.subelement_text_kwarg e "{kml}" None (Some "name") "name" true)
    = Ok {[ "name" := VStr "a b" ]}.
Proof.
  intros obj.
  destruct (text_encode_then_decode obj (mkElement "{kml}Base" None []) "name"
              (Some "name") None None None "name" true " a b ") as [H _].
  - reflexivity.
  - discriminate.
  - reflexivity.
  - exact H.
Defined.

(** X9. A boolean attribute is written as [1] or [0]. When the element
    had no child of that name before, decoding it with the same name space
    and node name gives the same boolean, in strict and in lenient mode. *)
Theorem bool_encode_then_decode (obj : XMLObject) (element : Element)
    (attr : string) (node_name : option string) (precision : option Z)
    (verbosity : option Verbosity) (name_spaces : option name_spaces_dict)
    (kwarg : string) (strict : bool) (b : bool) :
  getattr obj attr = VBool b ->
  find element (obj_ns obj ++ Py.fstr node_name)%string = None ->
  (let* e := helpers.bool_subelement obj element attr node_name precision verbosity in
   helpers.subelement_bool_kwarg e (obj_ns obj) name_spaces node_name kwarg strict)
    = Ok {[ kwarg := VBool b ]}.
Proof.
  intros Hattr Hfind.
  unfold helpers.bool_subelement. rewrite Hattr. simpl.
  unfold helpers.subelement_bool_kwarg.
  rewrite (find_SubElement _ _ _ Hfind).
  by destruct b, strict.
Qed.

Lemma bool_encode_then_decode_witness :
  let obj := mkObject examples.Base "" {[ "visibility" := VBool false ]} true in
  (let* e := helpers.bool_subelement obj (mkElement "Base" None []) "visibility"
               (Some "visibility") None None in
   helpers.subelement_bool_kwarg e "" None (Some "visibility") "visibility" false)
    = Ok {[ "visibility" := VBool false ]}.
Proof.
  intros obj.
  apply (bool_encode_then_decode obj (mkElement "Base" None []) "visibility"
           (Some "visibility") None None None "visibility" false false);
    reflexivity.
Defined.

Section IntRoundTrip.

Variable repr_other : pyval -> string.

(** X10. An integer attribute is written in decimal. When the element had
    no child of that name before, decoding it with the same name space and
    node name gives the same integer, in strict and in lenient mode. The
    integer is taken below the 4300 digits at which newer Python versions
    refuse the conversion between [int] and [str]. *)
Theorem int_encode_then_decode (obj : XMLObject) (element : Element)
    (attr : string) (node_name : option string) (precision : option Z)
    (verbosity : option Verbosity) (name_spaces : option name_spaces_dict)
    (kwarg : string) (strict : bool) (n : Z) :
  getattr obj attr = VInt n ->
  Z.abs n < 10 ^ 4300 ->
  find element (obj_ns obj ++ Py.fstr node_name)%string = None ->
  (let* e := helpers.int_subelement repr_other obj element attr node_name
               precision verbosity in
   helpers.subelement_int_kwarg e (obj_ns obj) name_spaces node_name kwarg strict)
    = Ok {[ kwarg := VInt n ]}.
Proof.
  intros Hattr _ Hfind.
  unfold helpers.int_subelement. rewrite Hattr. simpl.
  unfold helpers.subelement_int_kwarg.
  rewrite (find_SubElement _ _ _ Hfind), stripped_text_of_node.
  rewrite (strip_no_space _ (str_of_int_no_space n)).
  rewrite (truthy_str_nonempty _ (str_of_int_nonempty n)). simpl.
  by rewrite int_of_str_of_int.
Qed.

End IntRoundTrip.

Lemma int_encode_then_decode_witness :
  let obj := mkObject examples.Base "" {[ "drawOrder" := VInt (-12) ]} true in
  (let* e := helpers.int_subelement (fun _ => EmptyString) obj
               (mkElement "Base" None []) "drawOrder" (Some "drawOrder") None None in
   helpers.subelement_int_kwarg e "" None (Some "drawOrder") "drawOrder" true)
    = Ok {[ "drawOrder" := VInt (-12) ]}.
Proof.
  intros obj.
  apply (int_encode_then_decode (fun _ => EmptyString) obj (mkElement "Base" None [])
           "drawOrder" (Some "drawOrder") None None None "drawOrder" true (-12));
    [reflexivity|vm_compute; reflexivity|reflexivity].
Defined.

(** X11. An enumeration attribute is written as the value of its member.
    When the element had no child of that name before, decoding it with the
    same name space and node name and an enumeration that has this value
    gives the member of that enumeration with the value, in both modes,
    provided the value is not empty and has no white space around it. *)
Theorem enum_encode_then_decode (obj : XMLObject) (element : Element)
    (attr : string) (node_name : option string) (precision : option Z)
    (verbosity : option Verbosity) (name_spaces : option name_spaces_dict)
    (kwarg : string) (enum_class : EnumClass) (strict : bool) (m : EnumMember) :
  getattr obj attr = VEnum m ->
  value m <> EmptyString ->
  Py.strip (value m) = value m ->
  existsb (String.eqb (value m)) (enum_values enum_class) = true ->
  find element (obj_ns obj ++ Py.fstr node_name)%string = None ->
  (let* e := helpers.enum_subelement obj element attr node_name precision verbosity in
   helpers.subelement_enum_kwarg e (obj_ns obj) name_spaces node_name kwarg
     enum_class strict)
    = Ok {[ kwarg := VEnum (mkMember (enum_name enum_class) (value m)) ]}.
Proof.
  intros Hattr Hne Hstrip Hmem Hfind.
  unfold helpers.enum_subelement. rewrite Hattr. simpl.
  unfold helpers.subelement_enum_kwarg.
  rewrite (find_SubElement _ _ _ Hfind), stripped_text_of_node.
  rewrite Hstrip, (truthy_str_nonempty _ Hne). simpl.
  unfold enum_call. by rewrite Hmem.
Qed.

Lemma enum_encode_then_decode_witness :
  let modes := mkEnum "RefreshMode" ["onChange"; "onInterval"; "onExpire"] in
  let obj :=
    mkObject examples.Base ""
      {[ "refresh_mode" := VEnum (mkMember "RefreshMode" "onInterval") ]} true in
  (let* e := helpers.enum_subelement obj (mkElement "Base" None []) "refresh_mode"
               (Some "refreshMode") None None in
   helpers.subelement_enum_kwarg e "" None (Some "refreshMode") "refresh_mode"
     modes false)
    = Ok {[ "refresh_mode" := VEnum (mkMember "RefreshMode" "onInterval") ]}.
Proof.
  intros modes obj.
  apply (enum_encode_then_decode obj (mkElement "Base" None []) "refresh_mode"
           (Some "refreshMode") None None None "refresh_mode" modes false
           (mkMember "RefreshMode" "onInterval"));
    try reflexivity.
  discriminate.
Defined.

Section NestedRoundTrip.

Variable etree_element : XMLObject -> option Z -> option Verbosity -> result Element.

(** X12. A nested object is written as the element that its
    [etree_element] gives; when that element has the tag of the class and
    the destination had no child with this tag, decoding hands exactly this
    element to [class_from_element] of the class and stores what it
    returns. *)
Theorem object_encode_then_decode (obj : XMLObject) (element : Element)
    (attr : string) (node_name : option string) (precision : option Z)
    (verbosity : option Verbosity) (name_spaces : option name_spaces_dict)
    (kwarg : string) (obj_class : XMLClass) (strict : bool) (o : XMLObject)
    (child : Element) :
  getattr obj attr = VObj o ->
  obj_bool o = true ->
  etree_element o precision verbosity = Ok child ->
  tag child = (obj_ns obj ++ get_tag_name obj_class)%string ->
  find element (obj_ns obj ++ get_tag_name obj_class)%string = None ->
  (let* e := helpers.xml_subelement etree_element obj element attr node_name
               precision verbosity in
   helpers.xml_subelement_kwarg e (obj_ns obj) name_spaces node_name kwarg
     obj_class strict)
    = let* o' := class_from_element obj_class (obj_ns obj) name_spaces child strict in
      Ok {[ kwarg := VObj o' ]}.
Proof.
  intros Hattr Hbool Het Htag Hfind.
  unfold helpers.xml_subelement. rewrite Hattr. simpl. rewrite Hbool, Het. simpl.
  unfold helpers.xml_subelement_kwarg, append.
  rewrite find_extend_new by done. simpl.
  by rewrite Htag, String.eqb_refl.
Qed.

Lemma mapM_etree_element_of os precision verbosity :
  mapM (fun item => helpers.etree_element_of etree_element item precision verbosity)
       (map VObj os) =
  mapM (fun o => etree_element o precision verbosity) os.
Proof.
  induction os as [|o os IH]; simpl; [done|]. by rewrite IH.
Qed.

Lemma filter_all_tagged cs name :
  (forall c, In c cs -> tag c = name) ->
  List.filter (fun c => String.eqb (tag c) name) cs = cs.
Proof.
  induction cs as [|c cs IH]; intros H; simpl; [done|].
  rewrite (H c (or_introl eq_refl)), String.eqb_refl. f_equal.
  apply IH. intros c' Hc'. apply H. by right.
Qed.

(** X13. A list of nested objects is written as one child per object, in
    list order; when the children have the tag of one class and the
    destination had no child with this tag, decoding with that class as the
    only candidate decodes the children in the same order. *)
Theorem list_encode_then_decode (obj : XMLObject) (element : Element)
    (attr : string) (node_name : option string) (precision : option Z)
    (verbosity : option Verbosity) (name_spaces : option name_spaces_dict)
    (kwarg : string) (obj_class : XMLClass) (strict : bool)
    (os : list XMLObject) (cs : list Element) :
  getattr obj attr = VList (map VObj os) ->
  os <> [] ->
  mapM (fun o => etree_element o precision verbosity) os = Ok cs ->
  (forall c, In c cs -> tag c = (obj_ns obj ++ get_tag_name obj_class)%string) ->
  findall element (obj_ns obj ++ get_tag_name obj_class)%string = [] ->
  (let* e := helpers.xml_subelement_list etree_element obj element attr node_name
               precision verbosity in
   helpers.xml_subelement_list_kwarg e (obj_ns obj) name_spaces kwarg
     [obj_class] strict)
    = let* objs := mapM (decode_child obj_class (obj_ns obj) name_spaces strict) cs in
      Ok {[ kwarg := VList objs ]}.
Proof.
  intros Hattr Hos Hcs Htags Hnone.
  unfold helpers.xml_subelement_list. rewrite Hattr.
  assert (truthy (VList (map VObj os)) = true) as -> by (by destruct os).
  simpl. rewrite append_each_extend, mapM_etree_element_of, Hcs. simpl.
  unfold helpers.xml_subelement_list_kwarg.
  rewrite collect_classes_groups. simpl. unfold decode_group.
  rewrite findall_extend, Hnone, (filter_all_tagged _ _ Htags). simpl.
  destruct (mapM _ cs) as [objs|e]; simpl; [|done].
  by rewrite app_nil_r.
Qed.

End NestedRoundTrip.

Lemma object_encode_then_decode_witness :
  (let* e := helpers.xml_subelement more_examples.placemark_etree_element
               more_examples.folder (mkElement "Folder" None []) "feature" None
               None None in
   helpers.xml_subelement_kwarg e "" None None "feature" more_examples.Placemark true)
    = Ok {[ "feature" := VObj (more_examples.placemark "" "c") ]}.
Proof.
  apply (object_encode_then_decode more_examples.placemark_etree_element
           more_examples.folder (mkElement "Folder" None []) "feature" None None
           None None "feature" more_examples.Placemark true
           (more_examples.placemark "" "c") (mkElement "Placemark" (Some "c") []));
    reflexivity.
Defined.

Lemma list_encode_then_decode_witness :
  (let* e := helpers.xml_subelement_list more_examples.placemark_etree_element
               more_examples.folder (mkElement "Folder" None []) "features" None
               None None in
   helpers.xml_subelement_list_kwarg e "" None "features"
     [more_examples.Placemark] true)
    = Ok {[ "features" := VList [VObj (more_examples.placemark "" "a");
                                 VObj (more_examples.placemark "" "b")] ]}.
Proof.
  apply (list_encode_then_decode more_examples.placemark_etree_element
           more_examples.folder (mkElement "Folder" None []) "features" None None
           None None "features" more_examples.Placemark true
           [more_examples.placemark "" "a"; more_examples.placemark "" "b"]
           [mkElement "Placemark" (Some "a") []; mkElement "Placemark" (Some "b") []]).
  - reflexivity.
  - discriminate.
  - reflexivity.
  - intros c [<-|[<-|[]]]; reflexivity.
  - reflexivity.
Defined.

(** ** What the decoders return *)

(** X14. A decode function that returns gives the empty mapping or one
    entry under [kwarg], with a value of its kind: a text, a boolean, an
    integer, a float, a member of the enumeration given, an object; the
    list decoder gives one entry with a list. *)
Theorem decoders_return_one_entry_of_their_kind (element : Element) (ns : string)
    (name_spaces : option name_spaces_dict) (node_name : option string)
    (kwarg : string) (strict : bool) (enum_class : EnumClass)
    (obj_class : XMLClass) (obj_classes : list XMLClass) (m : kwargs_dict) :
  (helpers.subelement_text_kwarg element ns name_spaces node_name kwarg strict = Ok m ->
     m = ∅ \/ exists t, m = {[ kwarg := VStr t ]}) /\
  (helpers.subelement_bool_kwarg element ns name_spaces node_name kwarg strict = Ok m ->
     m = ∅ \/ exists b, m = {[ kwarg := VBool b ]}) /\
  (helpers.subelement_int_kwarg element ns name_spaces node_name kwarg strict = Ok m ->
     m = ∅ \/ exists n, m = {[ kwarg := VInt n ]}) /\
  (helpers.subelement_float_kwarg element ns name_spaces node_name kwarg strict = Ok m ->
     m = ∅ \/ exists x, m = {[ kwarg := VFloat x ]}) /\
  (helpers.subelement_enum_kwarg element ns name_spaces node_name kwarg enum_class
     strict = Ok m ->
     m = ∅ \/ exists v, m = {[ kwarg := VEnum (mkMember (enum_name enum_class) v) ]}) /\
  (helpers.xml_subelement_kwarg element ns name_spaces node_name kwarg obj_class
     strict = Ok m ->
     m = ∅ \/ exists o, m = {[ kwarg := VObj o ]}) /\
  (helpers.xml_subelement_list_kwarg element ns name_spaces kwarg obj_classes
     strict = Ok m ->
     exists l, m = {[ kwarg := VList l ]}).
Proof.
  unfold helpers.subelement_text_kwarg, helpers.subelement_bool_kwarg,
    helpers.subelement_int_kwarg, helpers.subelement_float_kwarg,
    helpers.subelement_enum_kwarg, helpers.xml_subelement_kwarg,
    helpers.xml_subelement_list_kwarg, enum_call.
  repeat split.
  - destruct (find element _) as [node|]; [|intros [= <-]; by left].
    destruct (helpers.stripped_text node); intros [= <-]; eauto.
  - destruct (find element _) as [node|]; [|intros [= <-]; by left].
    destruct (helpers.stripped_text node) as [t|]; [|intros [= <-]; by left].
    destruct strict.
    + destruct (Py.int_of_str t); [|done]. intros [= <-]. eauto.
    + destruct (_ || _); [intros [= <-]; eauto|].
      destruct (_ || _); [intros [= <-]; eauto|].
      destruct (Py.float_of_str t) as [x|]; [|intros [= <-]; by left].
      destruct (Py.int_of_float x) as [n|[]]; try done; intros [= <-]; eauto.
  - destruct (find element _) as [node|]; [|intros [= <-]; by left].
    destruct (helpers.stripped_text node) as [t|]; [|intros [= <-]; by left].
    destruct (Py.int_of_str t); [intros [= <-]; eauto|].
    destruct strict; [done|]. intros [= <-]. by left.
  - destruct (find element _) as [node|]; [|intros [= <-]; by left].
    destruct (helpers.stripped_text node) as [t|]; [|intros [= <-]; by left].
    destruct (Py.float_of_str t); [intros [= <-]; eauto|].
    destruct strict; [done|]. intros [= <-]. by left.
  - destruct (find element _) as [node|]; [|intros [= <-]; by left].
    destruct (helpers.stripped_text node) as [t|]; [|intros [= <-]; by left].
    destruct (existsb _ _); [|done]. intros [= <-]. eauto.
  - destruct (find element _) as [sub|]; [|intros [= <-]; by left].
    destruct (class_from_element _ _ _ _ _); [|done]. intros [= <-]. eauto.
  - destruct (helpers.collect_classes _ _ _ _ _ _); [|done]. intros [= <-]. eauto.
Qed.

Lemma decoders_return_one_entry_of_their_kind_witness :
  {[ "count" := VInt 3 ]} = (∅ : kwargs_dict) \/
  exists n, ({[ "count" := VInt 3 ]} : kwargs_dict) = {[ "count" := VInt n ]}.
Proof.
  destruct (decoders_return_one_entry_of_their_kind
              (mkElement "Base" None [mkElement "count" (Some " 3 ") []])
              "" None (Some "count") "count" true (mkEnum "E" [])
              more_examples.Placemark [] {[ "count" := VInt 3 ]})
    as (_ & _ & H & _).
  apply H. vm_compute. reflexivity.
Defined.

(** X15. In lenient mode the text, integer and float decoders never raise
    (the text decoder in neither mode), and the boolean decoder raises
    nothing but [OverflowError]. *)
Theorem lenient_decoders_raise_only_overflow (element : Element) (ns : string)
    (name_spaces : option name_spaces_dict) (node_name : option string)
    (kwarg : string) :
  (forall strict, exists m,
     helpers.subelement_text_kwarg element ns name_spaces node_name kwarg strict = Ok m) /\
  (exists m,
     helpers.subelement_int_kwarg element ns name_spaces node_name kwarg false = Ok m) /\
  (exists m,
     helpers.subelement_float_kwarg element ns name_spaces node_name kwarg false = Ok m) /\
  (forall e,
     helpers.subelement_bool_kwarg element ns name_spaces node_name kwarg false = Raise e ->
     e = OverflowError).
Proof.
  unfold helpers.subelement_text_kwarg, helpers.subelement_bool_kwarg,
    helpers.subelement_int_kwarg, helpers.subelement_float_kwarg.
  destruct (find element _) as [node|]; [|repeat split; eauto; done].
  destruct (helpers.stripped_text node) as [t|]; [|repeat split; eauto; done].
  repeat split; eauto.
  - destruct (Py.int_of_str t); eauto.
  - destruct (Py.float_of_str t); eauto.
  - intros e. destruct (_ || _); [done|]. destruct (_ || _); [done|].
    destruct (Py.float_of_str t) as [x|]; [|done].
    destruct x; simpl; try done. by intros [= <-].
Qed.

Lemma lenient_decoders_raise_only_overflow_witness :
  helpers.subelement_bool_kwarg
    (mkElement "Base" None [mkElement "visibility" (Some "-Infinity") []])
    "" None (Some "visibility") "visibility" false = Raise OverflowError /\
  exists m,
    helpers.subelement_float_kwarg
      (mkElement "Base" None [mkElement "visibility" (Some "-Infinity") []])
      "" None (Some "visibility") "visibility" false = Ok m.
Proof.
  destruct (lenient_decoders_raise_only_overflow
              (mkElement "Base" None [mkElement "visibility" (Some "-Infinity") []])
              "" None (Some "visibility") "visibility")
    as (_ & _ & Hfloat & Hbool).
  split; [|exact Hfloat].
  destruct (helpers.subelement_bool_kwarg _ _ _ _ _ _) as [m|e] eqn:E.
  - vm_compute in E. discriminate.
  - by rewrite (Hbool e eq_refl).
Defined.

Lemma stripped_text_is_stripped node t :
  helpers.stripped_text node = Some t ->
  t <> EmptyString /\ Py.strip t = t.
Proof.
  unfold helpers.stripped_text. destruct (text node) as [s|]; [|done].
  destruct (Py.truthy_str s && Py.truthy_str (Py.strip s)) eqn:E; [|done].
  intros [= <-]. apply andb_prop in E as [_ E]. split.
  - intros H. by rewrite H in E.
  - apply strip_idempotent.
Qed.

(** X16. A text that the text decoder returns is not empty and has no white
    space at its start or its end: stripping it again changes nothing. *)
Theorem decoded_text_is_stripped (element : Element) (ns : string)
    (name_spaces : option name_spaces_dict) (node_name : option string)
    (kwarg : string) (strict : bool) (m : kwargs_dict) (v : pyval) :
  helpers.subelement_text_kwarg element ns name_spaces node_name kwarg strict = Ok m ->
  m !! kwarg = Some v ->
  exists t, v = VStr t /\ t <> EmptyString /\ Py.strip t = t.
Proof.
  unfold helpers.subelement_text_kwarg.
  destruct (find element _) as [node|]; [|intros [= <-]; by rewrite lookup_empty].
  destruct (helpers.stripped_text node) as [t|] eqn:E;
    [|intros [= <-]; by rewrite lookup_empty].
  intros [= <-]. rewrite lookup_singleton_eq. intros [= <-].
  exists t. split; [done|]. by apply (stripped_text_is_stripped node).
Qed.

Lemma decoded_text_is_stripped_witness :
  exists t,
    VStr "a b" = VStr t /\ t <> EmptyString /\ Py.strip t = t.
Proof.
  apply (decoded_text_is_stripped
           (mkElement "Base" None [mkElement "name" (Some "  a b ") []])
           "" None (Some "name") "name" false {[ "name" := VStr "a b" ]}).
  - vm_compute. reflexivity.
  - vm_compute. reflexivity.
Defined.

(** X17. The decoders of the primitive kinds read the first child with the
    name and nothing else: the children before it, with other names, and
    all the children after it, also those with the same name, do not change
    the result. *)
Theorem decoders_read_only_the_first_match (element : Element) (ns : string)
    (name_spaces : option name_spaces_dict) (node_name : option string)
    (kwarg : string) (strict : bool) (enum_class : EnumClass)
    (pre post : list Element) (child : Element) :
  children element = pre ++ child :: post ->
  (forall c, In c pre -> tag c <> (ns ++ Py.fstr node_name)%string) ->
  tag child = (ns ++ Py.fstr node_name)%string ->
  let only := mkElement (tag element) (text element) [child] in
  helpers.subelement_text_kwarg element ns name_spaces node_name kwarg strict =
    helpers.subelement_text_kwarg only ns name_spaces node_name kwarg strict /\
  helpers.subelement_bool_kwarg element ns name_spaces node_name kwarg strict =
    helpers.subelement_bool_kwarg only ns name_spaces node_name kwarg strict /\
  helpers.subelement_int_kwarg element ns name_spaces node_name kwarg strict =
    helpers.subelement_int_kwarg only ns name_spaces node_name kwarg strict /\
  helpers.subelement_float_kwarg element ns name_spaces node_name kwarg strict =
    helpers.subelement_float_kwarg only ns name_spaces node_name kwarg strict /\
  helpers.subelement_enum_kwarg element ns name_spaces node_name kwarg enum_class
    strict =
    helpers.subelement_enum_kwarg only ns name_spaces node_name kwarg enum_class
      strict.
Proof.
  intros Hc Hpre Htag only.
  assert (find element (ns ++ Py.fstr node_name)%string =
          find only (ns ++ Py.fstr node_name)%string) as Hfind.
  { rewrite (find_first element _ pre child post Hc Hpre Htag).
    symmetry. by apply (find_first only _ [] child []). }
  destruct (decoders_read_first_child element only ns name_spaces node_name kwarg
              strict Hfind) as (H1 & H2 & H3 & H4 & H5).
  auto.
Qed.

Lemma decoders_read_only_the_first_match_witness :
  helpers.subelement_int_kwarg
    (mkElement "Base" None
       [mkElement "name" (Some "n") []; mkElement "count" (Some "1") [];
        mkElement "count" (Some "2") []])
    "" None (Some "count") "count" true =
  helpers.subelement_int_kwarg
    (mkElement "Base" None [mkElement "count" (Some "1") []])
    "" None (Some "count") "count" true.
Proof.
  destruct (decoders_read_only_the_first_match
              (mkElement "Base" None
                 [mkElement "name" (Some "n") []; mkElement "count" (Some "1") [];
                  mkElement "count" (Some "2") []])
              "" None (Some "count") "count" true (mkEnum "E" [])
              [mkElement "name" (Some "n") []] [mkElement "count" (Some "2") []]
              (mkElement "count" (Some "1") []))
    as (_ & _ & H & _).
  - reflexivity.
  - intros c [<-|[]]. discriminate.
  - reflexivity.
  - exact H.
Defined.

Section OtherNames.

Variable repr_other : pyval -> string.

Lemma primitive_encoders_shape (f : SetElement) obj element attr node precision
    verbosity e :
  In f [helpers.text_subelement; helpers.bool_subelement;
        helpers.int_subelement repr_other; helpers.float_subelement repr_other;
        helpers.enum_subelement] ->
  f obj element attr node precision verbosity = Ok e ->
  e = element \/
  exists txt, e = SubElement element (obj_ns obj ++ Py.fstr node)%string txt.
Proof.
  intros [<-|[<-|[<-|[<-|[<-|[]]]]]];
    unfold helpers.text_subelement, helpers.bool_subelement,
      helpers.int_subelement, helpers.float_subelement, helpers.enum_subelement.
  - destruct (truthy _); [|intros [= <-]; by left].
    destruct (helpers.text_of _); [|done]. intros [= <-]. eauto.
  - destruct (negb _); [|intros [= <-]; by left].
    destruct (py_int _); [|done]. intros [= <-]. eauto.
  - destruct (negb _); intros [= <-]; eauto.
  - destruct (negb _); intros [= <-]; eauto.
  - destruct (truthy _); [|intros [= <-]; by left].
    destruct (helpers.value_of _); [|done]. intros [= <-]. eauto.
Qed.

(** X18. An encoder of a primitive kind appends at most one child, with the
    name of its attribute's node: what the decoders of the primitive kinds
    read under any other name is the same before and after the call. *)
Theorem encoding_leaves_other_names (f : SetElement) (obj : XMLObject)
    (element e : Element) (attr : string) (node : option string)
    (precision : option Z) (verbosity : option Verbosity) (ns : string)
    (name_spaces : option name_spaces_dict) (node_name : option string)
    (kwarg : string) (strict : bool) (enum_class : EnumClass) :
  In f [helpers.text_subelement; helpers.bool_subelement;
        helpers.int_subelement repr_other; helpers.float_subelement repr_other;
        helpers.enum_subelement] ->
  f obj element attr node precision verbosity = Ok e ->
  (obj_ns obj ++ Py.fstr node)%string <> (ns ++ Py.fstr node_name)%string ->
  helpers.subelement_text_kwarg e ns name_spaces node_name kwarg strict =
    helpers.subelement_text_kwarg element ns name_spaces node_name kwarg strict /\
  helpers.subelement_bool_kwarg e ns name_spaces node_name kwarg strict =
    helpers.subelement_bool_kwarg element ns name_spaces node_name kwarg strict /\
  helpers.subelement_int_kwarg e ns name_spaces node_name kwarg strict =
    helpers.subelement_int_kwarg element ns name_spaces node_name kwarg strict /\
  helpers.subelement_float_kwarg e ns name_spaces node_name kwarg strict =
    helpers.subelement_float_kwarg element ns name_spaces node_name kwarg strict /\
  helpers.subelement_enum_kwarg e ns name_spaces node_name kwarg enum_class strict =
    helpers.subelement_enum_kwarg element ns name_spaces node_name kwarg enum_class
      strict.
Proof.
  intros Hf He Hne.
  assert (find e (ns ++ Py.fstr node_name)%string =
          find element (ns ++ Py.fstr node_name)%string) as Hfind.
  { destruct (primitive_encoders_shape f obj element attr node precision verbosity
                e Hf He) as [->|[txt ->]]; [done|].
    unfold SubElement, append. apply find_extend_other.
    intros c [<-|[]]. exact Hne. }
  destruct (decoders_read_first_child e element ns name_spaces node_name kwarg
              strict Hfind) as (H1 & H2 & H3 & H4 & H5).
  auto.
Qed.

End OtherNames.

Lemma encoding_leaves_other_names_witness :
  let obj := mkObject examples.Base "" {[ "visibility" := VBool true ]} true in
  let element := mkElement "Base" None [mkElement "name" (Some "n") []] in
  helpers.subelement_text_kwarg
    (mkElement "Base" None
       [mkElement "name" (Some "n") []; mkElement "visibility" (Some "1") []])
    "" None (Some "name") "name" true =
  helpers.subelement_text_kwarg element "" None (Some "name") "name" true.
Proof.
  intros obj element.
  destruct (encoding_leaves_other_names (fun _ => EmptyString)
              helpers.bool_subelement obj element
              (mkElement "Base" None
                 [mkElement "name" (Some "n") [];
                  mkElement "visibility" (Some "1") []])
              "visibility" (Some "visibility") None None "" None (Some "name")
              "name" true (mkEnum "E" []))
    as (H & _).
  - right. by left.
  - reflexivity.
  - discriminate.
  - exact H.
Defined.

(** ** The helpers under the keywords of the registry *)

Section Protocols.

Import pycall pydefs.

Variable repr_other : pyval -> string.
Variable etree_element : XMLObject -> option Z -> option Verbosity -> result Element.

(** X19. Every encoder of [helpers.py] has the parameters that
    [Registry.sub_element] names, [obj] included: called with those
    keywords it binds them all and runs on the values given. *)
Theorem encoders_accept_set_element_keywords (obj : XMLObject) (element : Element)
    (attr_name : string) (node_name : option string) (precision : option Z)
    (verbosity : option Verbosity) :
  let kws := set_element_keywords obj element attr_name node_name precision verbosity in
  call text_subelement [] kws =
    helpers.text_subelement obj element attr_name node_name precision verbosity /\
  call bool_subelement [] kws =
    helpers.bool_subelement obj element attr_name node_name precision verbosity /\
  call (int_subelement repr_other) [] kws =
    helpers.int_subelement repr_other obj element attr_name node_name precision
      verbosity /\
  call (float_subelement repr_other) [] kws =
    helpers.float_subelement repr_other obj element attr_name node_name precision
      verbosity /\
  call enum_subelement [] kws =
    helpers.enum_subelement obj element attr_name node_name precision verbosity /\
  call (xml_subelement etree_element) [] kws =
    helpers.xml_subelement etree_element obj element attr_name node_name precision
      verbosity /\
  call (xml_subelement_list etree_element) [] kws =
    helpers.xml_subelement_list etree_element obj element attr_name node_name
      precision verbosity.
Proof.
  destruct node_name, precision, verbosity; repeat split; reflexivity.
Qed.

(** X20. No decoder of [helpers.py] has the parameters [attr_name] and
    [classes] that [Registry.get_kwargs] names: called with those keywords,
    whatever the values, each of them raises [TypeError] before its body
    runs. *)
Theorem decoders_reject_get_kwarg_keywords (element : Element) (ns : string)
    (name_spaces : option name_spaces_dict) (node_name : option string)
    (attr_name : string) (classes : pyarg) (strict : bool) :
  let kws := get_kwarg_keywords element ns name_spaces node_name attr_name
               classes strict in
  call subelement_text_kwarg [] kws = Raise TypeError /\
  call subelement_bool_kwarg [] kws = Raise TypeError /\
  call subelement_int_kwarg [] kws = Raise TypeError /\
  call subelement_float_kwarg [] kws = Raise TypeError /\
  call subelement_enum_kwarg [] kws = Raise TypeError /\
  bind_arguments xml_decoder_signature [] kws = Raise TypeError /\
  bind_arguments xml_list_decoder_signature [] kws = Raise TypeError.
Proof.
  destruct name_spaces, node_name; repeat split; reflexivity.
Qed.

End Protocols.

(** ** [Link.etree_element] *)

Section LinkEncode.

Import pycall.

Variable repr_other : pyval -> string.
Variable base_etree_element :
  XMLObject -> option Z -> option Verbosity -> result Element.

Lemma call_text_subelement self element attr node :
  call text_subelement [AObj self]
    [("element", AElement element); ("attr_name", AStr attr);
     ("node_name", AStr node)] =
  helpers.text_subelement self element attr (Some node) None None.
Proof. reflexivity. Qed.

Lemma call_enum_subelement self element attr node :
  call enum_subelement [AObj self]
    [("element", AElement element); ("attr_name", AStr attr);
     ("node_name", AStr node)] =
  helpers.enum_subelement self element attr (Some node) None None.
Proof. reflexivity. Qed.

Lemma call_float_subelement self element attr node precision :
  call (float_subelement repr_other) [AObj self]
    [("element", AElement element); ("attr_name", AStr attr);
     ("node_name", AStr node); ("precision", of_opt_int precision)] =
  helpers.float_subelement repr_other self element attr (Some node) precision None.
Proof. destruct precision; reflexivity. Qed.

Lemma text_emitted_any_precision self attr node precision :
  emitted helpers.text_subelement self attr node precision None =
  emitted helpers.text_subelement self attr node None None.
Proof. reflexivity. Qed.

Lemma enum_emitted_any_precision self attr node precision :
  emitted helpers.enum_subelement self attr node precision None =
  emitted helpers.enum_subelement self attr node None None.
Proof. reflexivity. Qed.

Lemma Link_etree_element_equation (self : XMLObject)
    (precision : option Z) (verbosity : option Verbosity) :
  links.etree_element repr_other base_etree_element self precision verbosity =
  let* element := base_etree_element self precision verbosity in
  let* css := mapM (Link_emit self precision) (Link_fields repr_other) in
  Ok (extend element (concat css)).
Proof.
  unfold links.etree_element.
  destruct (base_etree_element self precision verbosity) as [element|e];
    simpl bind; [|done].
  cbn [mapM Link_fields]. unfold Link_emit. cbn [fst snd].
  rewrite !text_emitted_any_precision, !enum_emitted_any_precision.
  rewrite call_text_subelement, (text_subelement_appends self element).
  destruct (emitted helpers.text_subelement self "href" _ _ _) as [c1|e];
    simpl bind; [|done].
  rewrite call_text_subelement, (text_subelement_appends self (extend element c1)).
  destruct (emitted helpers.text_subelement self "view_format" _ _ _) as [c2|e];
    simpl bind; [|done].
  rewrite call_text_subelement, (text_subelement_appends self (extend _ c2)).
  destruct (emitted helpers.text_subelement self "http_query" _ _ _) as [c3|e];
    simpl bind; [|done].
  rewrite call_enum_subelement, (enum_subelement_appends self (extend _ c3)).
  destruct (emitted helpers.enum_subelement self "refresh_mode" _ _ _) as [c4|e];
    simpl bind; [|done].
  rewrite call_enum_subelement, (enum_subelement_appends self (extend _ c4)).
  destruct (emitted helpers.enum_subelement self "view_refresh_mode" _ _ _) as [c5|e];
    simpl bind; [|done].
  rewrite call_float_subelement,
    (float_subelement_appends repr_other self (extend _ c5)).
  destruct (emitted (helpers.float_subelement repr_other) self "view_refresh_time" _ _ _)
    as [c6|e]; simpl bind; [|done].
  rewrite call_float_subelement,
    (float_subelement_appends repr_other self (extend _ c6)).
  destruct (emitted (helpers.float_subelement repr_other) self "refresh_interval" _ _ _)
    as [c7|e]; simpl bind; [|done].
  rewrite call_float_subelement,
    (float_subelement_appends repr_other self (extend _ c7)).
  destruct (emitted (helpers.float_subelement repr_other) self "view_bound_scale" _ _ _)
    as [c8|e]; simpl bind; [|done].
  rewrite !extend_extend. simpl concat. by rewrite app_nil_r.
Qed.

Lemma Link_emit_text self precision attr node :
  (getattr self attr = VNone \/ exists t, getattr self attr = VStr t) ->
  exists cs,
    Link_emit self precision (attr, node, helpers.text_subelement) = Ok cs /\
    (length cs <= 1)%nat /\ (getattr self attr = VNone -> cs = []).
Proof.
  unfold Link_emit, emitted, helpers.text_subelement. cbn [fst snd].
  intros [->|[t ->]]; simpl.
  - exists []. split; [done|]. split; [simpl; lia|done].
  - destruct (Py.truthy_str t); simpl; eexists; (split; [reflexivity|]);
      (split; [simpl; lia|done]).
Qed.

Lemma Link_emit_enum self precision attr node :
  (getattr self attr = VNone \/ exists m, getattr self attr = VEnum m) ->
  exists cs,
    Link_emit self precision (attr, node, helpers.enum_subelement) = Ok cs /\
    (length cs <= 1)%nat /\ (getattr self attr = VNone -> cs = []).
Proof.
  unfold Link_emit, emitted, helpers.enum_subelement. cbn [fst snd].
  intros [->|[m ->]]; simpl.
  - exists []. split; [done|]. split; [simpl; lia|done].
  - eexists. split; [reflexivity|]. split; [simpl; lia|done].
Qed.

Lemma Link_emit_float self precision attr node :
  exists cs,
    Link_emit self precision (attr, node, helpers.float_subelement repr_other) = Ok cs /\
    (length cs <= 1)%nat /\ (getattr self attr = VNone -> cs = []).
Proof.
  unfold Link_emit, emitted, helpers.float_subelement. cbn [fst snd].
  destruct (getattr self attr); simpl; eexists; (split; [reflexivity|]);
    (split; [simpl; lia|done]).
Qed.

(** X21. [Link.etree_element] returns the element of the base class with
    the children that the eight attributes emit appended in a fixed order:
    href, viewFormat, httpQuery, refreshMode, viewRefreshMode,
    viewRefreshTime, refreshInterval, viewBoundScale. For a [Link] whose
    text attributes hold [None] or a text and whose mode attributes hold
    [None] or a member of an enumeration it does not raise and appends at
    most eight children; when the eight attributes are [None] it returns
    the element of the base class as it is. *)
Theorem Link_etree_element_appends_in_order (self : XMLObject)
    (precision : option Z) (verbosity : option Verbosity) (element : Element) :
  base_etree_element self precision verbosity = Ok element ->
  links.etree_element repr_other base_etree_element self precision verbosity =
    (let* css := mapM (Link_emit self precision) (Link_fields repr_other) in
     Ok (extend element (concat css))) /\
  (Link_well_typed self ->
   exists cs,
     links.etree_element repr_other base_etree_element self precision verbosity
       = Ok (extend element cs) /\
     (length cs <= 8)%nat) /\
  ((forall field, In field (Link_fields repr_other) ->
      getattr self field.1.1 = VNone) ->
   links.etree_element repr_other base_etree_element self precision verbosity
     = Ok element).
Proof.
  intros Hbase. rewrite Link_etree_element_equation, Hbase. cbn [bind].
  split; [done|].
  assert (Link_well_typed self ->
          exists css,
            mapM (Link_emit self precision) (Link_fields repr_other) = Ok css /\
            (length (concat css) <= 8)%nat /\
            ((forall field, In field (Link_fields repr_other) ->
                getattr self field.1.1 = VNone) -> concat css = [])) as Hcss.
  { intros (Ht & Hm). cbn [mapM Link_fields].
    destruct (Link_emit_text self precision "href" "href") as (c1 & -> & L1 & N1);
      [apply Ht; simpl; tauto|].
    destruct (Link_emit_text self precision "view_format" "viewFormat")
      as (c2 & -> & L2 & N2); [apply Ht; simpl; tauto|].
    destruct (Link_emit_text self precision "http_query" "httpQuery")
      as (c3 & -> & L3 & N3); [apply Ht; simpl; tauto|].
    destruct (Link_emit_enum self precision "refresh_mode" "refreshMode")
      as (c4 & -> & L4 & N4); [apply Hm; simpl; tauto|].
    destruct (Link_emit_enum self precision "view_refresh_mode" "viewRefreshMode")
      as (c5 & -> & L5 & N5); [apply Hm; simpl; tauto|].
    destruct (Link_emit_float self precision "view_refresh_time" "viewRefreshTime")
      as (c6 & -> & L6 & N6).
    destruct (Link_emit_float self precision "refresh_interval" "refreshInterval")
      as (c7 & -> & L7 & N7).
    destruct (Link_emit_float self precision "view_bound_scale" "viewBoundScale")
      as (c8 & -> & L8 & N8).
    simpl bind. eexists. split; [reflexivity|]. simpl concat. split.
    - rewrite !length_app. simpl. lia.
    - intros Hnone.
      rewrite (N1 (Hnone ("href", "href", helpers.text_subelement)
                     ltac:(simpl; tauto))).
      rewrite (N2 (Hnone ("view_format", "viewFormat", helpers.text_subelement)
                     ltac:(simpl; tauto))).
      rewrite (N3 (Hnone ("http_query", "httpQuery", helpers.text_subelement)
                     ltac:(simpl; tauto))).
      rewrite (N4 (Hnone ("refresh_mode", "refreshMode", helpers.enum_subelement)
                     ltac:(simpl; tauto))).
      rewrite (N5 (Hnone ("view_refresh_mode", "viewRefreshMode",
                          helpers.enum_subelement) ltac:(simpl; tauto))).
      rewrite (N6 (Hnone ("view_refresh_time", "viewRefreshTime",
                          helpers.float_subelement repr_other) ltac:(simpl; tauto))).
      rewrite (N7 (Hnone ("refresh_interval", "refreshInterval",
                          helpers.float_subelement repr_other) ltac:(simpl; tauto))).
      rewrite (N8 (Hnone ("view_bound_scale", "viewBoundScale",
                          helpers.float_subelement repr_other) ltac:(simpl; tauto))).
      done. }
  split.
  - intros Hwt. destruct (Hcss Hwt) as (css & -> & Hlen & _). simpl. eauto.
  - intros Hnone.
    assert (Link_well_typed self) as Hwt.
    { split; intros a Ha; left.
      - destruct Ha as [<-|[<-|[<-|[]]]];
          [apply (Hnone ("href", "href", helpers.text_subelement))
          |apply (Hnone ("view_format", "viewFormat", helpers.text_subelement))
          |apply (Hnone ("http_query", "httpQuery", helpers.text_subelement))];
          simpl; tauto.
      - destruct Ha as [<-|[<-|[]]];
          [apply (Hnone ("refresh_mode", "refreshMode", helpers.enum_subelement))
          |apply (Hnone ("view_refresh_mode", "viewRefreshMode", helpers.enum_subelement))];
          simpl; tauto. }
    destruct (Hcss Hwt) as (css & -> & _ & Hnil). simpl.
    by rewrite (Hnil Hnone), extend_nil.
Qed.

End LinkEncode.

Lemma Link_etree_element_appends_in_order_witness :
  let base :=
    fun (self : XMLObject) (_ : option Z) (_ : option Verbosity) =>
      Ok (mkElement (obj_ns self ++ "Link") None []) in
  let link :=
    mkObject (links.Link 8 [7; 1]%positive) "{kml}"
      (links.Link_attrs (VStr "http://example.com/a.kml")
         (VEnum (mkMember "RefreshMode" "onInterval")) VNone VNone VNone VNone
         (VStr "BBOX=1") VNone) true in
  exists cs,
    links.etree_element (fun _ => EmptyString) base link None (Some normal)
      = Ok (extend (mkElement "{kml}Link" None []) cs) /\
    (length cs <= 8)%nat.
Proof.
  intros base link.
  destruct (Link_etree_element_appends_in_order (fun _ => EmptyString) base link
              None (Some normal) (mkElement "{kml}Link" None []) eq_refl)
    as (_ & H & _).
  apply H. split; intros a Ha.
  - destruct Ha as [<-|[<-|[<-|[]]]]; vm_compute; eauto.
  - destruct Ha as [<-|[<-|[]]]; vm_compute; eauto.
Defined.
